(** * yab: the gRPC transport adapter (transport/grpc.go)

    A shallow embedding of [newGRPC], [Call], [CallStream], [Close] and of
    the request/response translators, followed by the properties of the
    adapter contract.

    Go values are embedded as follows.
    - A pointer or interface that the code compares with [nil] is an
      [option]; a [nil] dereference is the outcome [Panicked].
    - A Go result pair [(v, err)] is a Coq pair whose error component is an
      [option error] ([None] is Go's [nil]).
    - [int] and [time.Duration] are [Z]; the code only compares them with 0.
    - Calls into the engine (yarpc), the file system and the TLS library are
      answered by a [World] of oracles and recorded, in program order, in a
      trace of [Event]s. *)

From stdpp Require Import base strings gmap list.
From Stdlib Require Import ZArith.

Local Open Scope string_scope.
Local Open Scope list_scope.
Local Open Scope Z_scope.

(** ** Errors *)

(** [errors.New] values, and the aggregate built by [multierr]. *)
#[warnings="-register-all"]
Inductive error : Type :=
| errorString (s : string)
| multiError (errs : list error).

Definition errors_New (s : string) : error := errorString s.

Fixpoint joinWith (sep : string) (l : list string) : string :=
  match l with
  | [] => ""
  | [s] => s
  | s :: rest => s +:+ sep +:+ joinWith sep rest
  end.

(** The [Error()] method. *)
Fixpoint Error (e : error) : string :=
  match e with
  | errorString s => s
  | multiError errs => joinWith "; " (map Error errs)
  end.

(** [fmt.Errorf(prefix + "%v", err)]: the two format strings of the source
    end in the verb. *)
Definition fmt_Errorf_v (prefix : string) (err : error) : error :=
  errorString (prefix +:+ Error err).

Definition errGRPCNoAddresses : error := errors_New "must specify at least one grpc address".
Definition errGRPCNoTracer : error := errors_New "must specify grpc tracer".
Definition errGRPCNoCaller : error := errors_New "must specify grpc caller".
Definition errGRPCNoService : error := errors_New "must specify grpc service".
Definition errGRPCNoProcedure : error := errors_New "must specify grpc procedure".

(** [multierr.Combine]: [nil]s are dropped; no error left gives [nil], one
    gives that error itself, several give one aggregate in which nested
    aggregates are flattened. *)
Definition flattenError (e : error) : list error :=
  match e with
  | multiError errs => errs
  | _ => [e]
  end.

Definition multierr_Combine (errs : list (option error)) : option error :=
  match omap id errs with
  | [] => None
  | [e] => Some e
  | nonNil => Some (multiError (concat (map flattenError nonNil)))
  end.

(** ** Data model *)

Abbreviation bytes := (list Byte.byte).

#[global] Instance byte_eq_dec : EqDecision Byte.byte := Byte.byte_eq_dec.
Definition Time := Z.
Definition Duration := Z.
Definition Second : Duration := 1000000000.

(** [opentracing.Tracer], an opaque handle. *)
Inductive TracerHandle : Type := mkTracer (name : string).

Module GRPCOptions.
Record t : Type := mk {
    Addresses : list string;
    Tracer : option TracerHandle;
    Caller : string;
    Encoding : string;
    RoutingKey : string;
    RoutingDelegate : string;
    MaxResponseSize : Z;
    CAPath : string;
    CertPath : string;
    PrivateKeyPath : string
  }.
End GRPCOptions.

(** *** context.Context *)

Inductive Context : Type :=
| Background
| valueCtx (parent : Context) (key val : string)
| cancelCtx (parent : Context)
| timerCtx (parent : Context) (deadline : Time).

(** [ctx.Deadline()]; [None] is [ok = false]. *)
Fixpoint Deadline (ctx : Context) : option Time :=
  match ctx with
  | Background => None
  | valueCtx parent _ _ => Deadline parent
  | cancelCtx parent => Deadline parent
  | timerCtx _ d => Some d
  end.

Inductive CancelFunc : Type :=
| cancelNoop
| cancelOf (ctx : Context).

Definition context_WithCancel (parent : Context) : Context * CancelFunc :=
  (cancelCtx parent, cancelOf (cancelCtx parent)).

(** [context.WithDeadline]: an earlier deadline of the parent is kept. *)
Definition context_WithDeadline (parent : Context) (d : Time) : Context * CancelFunc :=
  match Deadline parent with
  | Some cur => if bool_decide (cur < d) then context_WithCancel parent
                else (timerCtx parent d, cancelOf (timerCtx parent d))
  | None => (timerCtx parent d, cancelOf (timerCtx parent d))
  end.

(** [context.WithTimeout], with the clock reading [now]. *)
Definition context_WithTimeout (now : Time) (parent : Context) (timeout : Duration)
  : Context * CancelFunc :=
  context_WithDeadline parent (now + timeout).

(** *** The generic request and response *)

(** Modelled from the spec: the header items of a wire response and the
    headers of [Response] are declared outside src/ (the yarpc [Headers]
    type and this repository's [Response] struct); section 3 gives them as an
    ordered list of key/value pairs as returned by the wire layer. *)
Definition HeaderItems := list (string * string).

Module Request.
Record t : Type := mk {
    TargetService : string;
    Method : string;
    Headers : gmap string string;
    ShardKey : string;
    Timeout : Duration;
    Body : bytes
  }.
End Request.

Module StreamRequest.
Record t : Type := mk { Request : option Request.t }.
End StreamRequest.

Module Response.
Record t : Type := mk {
    Headers : HeaderItems;
    Body : bytes
  }.
End Response.

(** *** The wire level (yarpc api/transport) *)

Module yarpc.
Record Headers : Type := mkHeaders { Items : HeaderItems }.

Module Request.
Record t : Type := mk {
      Caller : string;
      Service : string;
      Encoding : string;
      Procedure : string;
      Headers : yarpc.Headers;
      ShardKey : string;
      RoutingKey : string;
      RoutingDelegate : string;
      Body : bytes
    }.
End Request.

Module RequestMeta.
Record t : Type := mk {
      Caller : string;
      Service : string;
      Encoding : string;
      Procedure : string;
      Headers : yarpc.Headers;
      ShardKey : string;
      RoutingKey : string;
      RoutingDelegate : string
    }.
End RequestMeta.

Module StreamRequest.
Record t : Type := mk { Meta : option RequestMeta.t }.
End StreamRequest.

  (** An [io.ReadCloser]: the chunks successive reads deliver, how reading
      ends ([None] is [io.EOF]) and what [Close] answers. *)
Record ReadCloser : Type := mkReadCloser {
    chunks : list bytes;
    readEnd : option error;
    closeErr : option error
  }.

Module Response.
Record t : Type := mk {
      Headers : yarpc.Headers;
      Body : option ReadCloser
    }.
End Response.

Inductive ClientStream : Type := mkClientStream (id : Z).
End yarpc.

(** *** Engine objects built by the constructor *)

(** A parsed certificate, identified by its DER encoding. *)
Abbreviation X509Cert := bytes.
Abbreviation CertPool := (list X509Cert).

Record TLSCertificate : Type := mkTLSCertificate {
  certChain : list bytes;
  privateKey : bytes
}.

Record TLSConfig : Type := mkTLSConfig {
  RootCAs : CertPool;
  Certificates : list TLSCertificate;
  InsecureSkipVerify : bool
}.

Inductive TransportOption : Type :=
| grpc_Tracer (t : TracerHandle)
| grpc_ClientMaxRecvMsgSize (n : Z).

Inductive DialOption : Type :=
| grpc_DialerTLSConfig (c : TLSConfig).

(** [*grpc.Transport] *)
Record GrpcTransport : Type := mkGrpcTransport {
  transportOptions : list TransportOption
}.

(** [apipeer.Transport]: the base transport itself or a dialer made from it. *)
Inductive PeerTransport : Type :=
| peerBase (t : GrpcTransport)
| peerDialer (t : GrpcTransport) (dialOptions : list DialOption).

Inductive Identifier : Type := hostport_Identify (peer : string).

(** [peer.Bind(roundrobin.New(pt), peer.BindPeers(ids))] *)
Record Chooser : Type := mkChooser {
  roundrobin_New : PeerTransport;
  peer_BindPeers : list Identifier
}.

(** [*grpc.Outbound] *)
Record GrpcOutbound : Type := mkGrpcOutbound {
  outboundTransport : GrpcTransport;
  outboundChooser : Chooser
}.

Module grpcTransport.
Record t : Type := mk {
    Transport : GrpcTransport;
    Outbound : GrpcOutbound;
    StreamOutbound : GrpcOutbound;
    Caller : string;
    Encoding : string;
    RoutingKey : string;
    RoutingDelegate : string;
    tracer : option TracerHandle
  }.
End grpcTransport.

Inductive Protocol : Type := GRPC.

(** ** The world outside the adapter *)

Record World : Type := mkWorld {
  (** [time.Now()] *)
  now : Time;
  (** [ioutil.ReadFile] *)
  readFile : string -> bytes * option error;
  (** the certificates [AppendCertsFromPEM] manages to parse out of PEM data *)
  parseCertsPEM : bytes -> list X509Cert;
  (** [tls.LoadX509KeyPair] *)
  loadX509KeyPair : string -> string -> TLSCertificate * option error;
  (** [transport.HeadersFromMap] *)
  headersFromMap : gmap string string -> yarpc.Headers;
  (** [Start] and [Stop] of the transport and of the outbound *)
  transportStart : option error;
  outboundStart : option error;
  transportStop : option error;
  outboundStop : option error;
  (** [Call] and [CallStream] of the outbound *)
  outboundCall : Context -> yarpc.Request.t -> option yarpc.Response.t * option error;
  outboundCallStream : Context -> option yarpc.StreamRequest.t
                       -> option yarpc.ClientStream * option error
}.

Inductive Event : Type :=
| EvNewTransport (opts : list TransportOption)
| EvReadFile (path : string)
| EvLoadX509KeyPair (certFile keyFile : string)
| EvNewDialer (t : GrpcTransport) (opts : list DialOption)
| EvNewOutbound (t : GrpcTransport) (c : Chooser)
| EvTransportStart (r : option error)
| EvOutboundStart (r : option error)
| EvTransportStop (r : option error)
| EvOutboundStop (r : option error)
| EvOutboundCall (ctx : Context) (req : yarpc.Request.t)
| EvOutboundCallStream (ctx : Context) (req : option yarpc.StreamRequest.t)
| EvReadAll
| EvBodyClose
| EvCancel (c : CancelFunc).

(** ** The monad of effectful code: a trace of events, and panics *)

Inductive outcome (A : Type) : Type :=
| Returned (a : A)
| Panicked.
Arguments Returned {A} a.
Arguments Panicked {A}.

Definition Run (A : Type) : Type := list Event -> outcome A * list Event.

#[global] Instance Run_ret : MRet Run := fun A a tr => (Returned a, tr).

#[global] Instance Run_bind : MBind Run := fun A B f m tr =>
  match m tr with
  | (Returned a, tr') => f a tr'
  | (Panicked, tr') => (Panicked, tr')
  end.

Definition emit (e : Event) : Run unit := fun tr => (Returned tt, tr ++ [e]).

Definition panic {A : Type} : Run A := fun tr => (Panicked, tr).

(** [defer d] around [body]: [d] runs when [body] is left, also by a panic. *)
Definition defer {A : Type} (d : Run unit) (body : Run A) : Run A := fun tr =>
  let '(o, tr1) := body tr in
  let '(_, tr2) := d tr1 in
  (o, tr2).

(** Dereferencing a pointer. *)
Definition deref {A : Type} (p : option A) : Run A :=
  match p with
  | Some a => mret a
  | None => panic
  end.

(** ** Calls into the engine and the libraries *)

Section Calls.
Context (w : World).

Definition grpc_NewTransport (opts : list TransportOption) : Run GrpcTransport :=
    emit (EvNewTransport opts);; mret (mkGrpcTransport opts).

Definition ioutil_ReadFile (path : string) : Run (bytes * option error) :=
    emit (EvReadFile path);; mret (readFile w path).

Definition x509_NewCertPool : CertPool := [].

  (** A certificate already in the pool is not added again. *)
Definition AddCert (s : CertPool) (c : X509Cert) : CertPool :=
    if decide (c ∈ s) then s else s ++ [c].

  (** [certPool.AppendCertsFromPEM]: the pool after the call, and [ok]. *)
Definition AppendCertsFromPEM (s : CertPool) (pemCerts : bytes) : CertPool * bool :=
    (foldl AddCert s (parseCertsPEM w pemCerts),
     bool_decide (parseCertsPEM w pemCerts ≠ [])).

Definition tls_LoadX509KeyPair (certFile keyFile : string)
    : Run (TLSCertificate * option error) :=
    emit (EvLoadX509KeyPair certFile keyFile);; mret (loadX509KeyPair w certFile keyFile).

Definition NewDialer (t : GrpcTransport) (opts : list DialOption) : Run PeerTransport :=
    emit (EvNewDialer t opts);; mret (peerDialer t opts).

Definition NewOutbound (t : GrpcTransport) (c : Chooser) : Run GrpcOutbound :=
    emit (EvNewOutbound t c);; mret (mkGrpcOutbound t c).

Definition Transport_Start (t : GrpcTransport) : Run (option error) :=
    emit (EvTransportStart (transportStart w));; mret (transportStart w).

Definition Outbound_Start (o : GrpcOutbound) : Run (option error) :=
    emit (EvOutboundStart (outboundStart w));; mret (outboundStart w).

Definition Transport_Stop (t : GrpcTransport) : Run (option error) :=
    emit (EvTransportStop (transportStop w));; mret (transportStop w).

Definition Outbound_Stop (o : GrpcOutbound) : Run (option error) :=
    emit (EvOutboundStop (outboundStop w));; mret (outboundStop w).

Definition Outbound_Call (o : GrpcOutbound) (ctx : Context) (req : yarpc.Request.t)
    : Run (option yarpc.Response.t * option error) :=
    emit (EvOutboundCall ctx req);; mret (outboundCall w ctx req).

Definition Outbound_CallStream (o : GrpcOutbound) (ctx : Context)
      (req : option yarpc.StreamRequest.t)
    : Run (option yarpc.ClientStream * option error) :=
    emit (EvOutboundCallStream ctx req);; mret (outboundCallStream w ctx req).

  (** [ioutil.ReadAll]: everything read before the end of the stream or the
      first error, and that error. *)
Definition ioutil_ReadAll (r : yarpc.ReadCloser) : Run (bytes * option error) :=
    emit EvReadAll;; mret (concat (yarpc.chunks r), yarpc.readEnd r).

Definition Body_Close (r : yarpc.ReadCloser) : Run (option error) :=
    emit EvBodyClose;; mret (yarpc.closeErr r).

  (** ** The adapter (transport/grpc.go) *)

Definition peersToIdentifiers (peers : list string) : list Identifier :=
    map hostport_Identify peers.

  (** Lines 127-145 of [newGRPC]: start the transport, then the outbound. *)
Definition newGRPC_start (options : GRPCOptions.t) (transport : GrpcTransport)
      (outbound : GrpcOutbound) : Run (option grpcTransport.t * option error) :=
    err ← Transport_Start transport;
    match err with
    | Some err => mret (None, Some err)
    | None =>
      err ← Outbound_Start outbound;
      match err with
      | Some err =>
        _ ← Transport_Stop transport;
        mret (None, Some err)
      | None =>
        mret (Some {|
          grpcTransport.Transport := transport;
          grpcTransport.Outbound := outbound;
          grpcTransport.StreamOutbound := outbound;
          grpcTransport.Caller := GRPCOptions.Caller options;
          grpcTransport.Encoding := GRPCOptions.Encoding options;
          grpcTransport.RoutingKey := GRPCOptions.RoutingKey options;
          grpcTransport.RoutingDelegate := GRPCOptions.RoutingDelegate options;
          grpcTransport.tracer := GRPCOptions.Tracer options
        |}, None)
      end
    end.

  (** Line 125 and what follows it, for the peer transport chosen before. *)
Definition newGRPC_bind (options : GRPCOptions.t) (transport : GrpcTransport)
      (peerTransport : PeerTransport) : Run (option grpcTransport.t * option error) :=
    outbound ← NewOutbound transport
      (mkChooser peerTransport (peersToIdentifiers (GRPCOptions.Addresses options)));
    newGRPC_start options transport outbound.

  (** Lines 92-95 of [newGRPC]: the options of the underlying transport. *)
Definition newGRPC_transportOptions (options : GRPCOptions.t) (optionsTracer : TracerHandle)
    : list TransportOption :=
    let transportOptions := [grpc_Tracer optionsTracer] in
    if bool_decide (GRPCOptions.MaxResponseSize options > 0)
    then transportOptions ++ [grpc_ClientMaxRecvMsgSize (GRPCOptions.MaxResponseSize options)]
    else transportOptions.

Definition newGRPC (options : GRPCOptions.t) : Run (option grpcTransport.t * option error) :=
    if decide (length (GRPCOptions.Addresses options) = 0%nat) then
      mret (None, Some errGRPCNoAddresses)
    else match GRPCOptions.Tracer options with
    | None => mret (None, Some errGRPCNoTracer)
    | Some optionsTracer =>
    if decide (GRPCOptions.Caller options = "") then
      mret (None, Some errGRPCNoCaller)
    else
      transport ← grpc_NewTransport (newGRPC_transportOptions options optionsTracer);
      if bool_decide (GRPCOptions.CAPath options ≠ "")
         && bool_decide (GRPCOptions.CertPath options ≠ "")
         && bool_decide (GRPCOptions.PrivateKeyPath options ≠ "")
      then
        '(ca, err) ← ioutil_ReadFile (GRPCOptions.CAPath options);
        match err with
        | Some err => mret (None, Some (fmt_Errorf_v "could not load ca " err))
        | None =>
          let certPool := x509_NewCertPool in
          let '(certPool, ok) := AppendCertsFromPEM certPool ca in
          if negb ok then mret (None, Some (errors_New "failed to append ca"))
          else
            '(clientCert, err) ← tls_LoadX509KeyPair (GRPCOptions.CertPath options)
                                                     (GRPCOptions.PrivateKeyPath options);
            match err with
            | Some err => mret (None, Some (fmt_Errorf_v "failed to load X509 keypair " err))
            | None =>
              let dialOptions := [grpc_DialerTLSConfig {|
                RootCAs := certPool;
                Certificates := [clientCert];
                InsecureSkipVerify := true
              |}] in
              peerTransport ← NewDialer transport dialOptions;
              newGRPC_bind options transport peerTransport
            end
        end
      else newGRPC_bind options transport (peerBase transport)
    end.

  (** [NewGRPC] returns the same pair behind the [TransportCloser] interface. *)
Definition NewGRPC (options : GRPCOptions.t) : Run (option grpcTransport.t * option error) :=
    newGRPC options.

Definition Tracer (t : option grpcTransport.t) : Run (option TracerHandle) :=
    t ← deref t; mret (grpcTransport.tracer t).

Definition Protocol_of (t : option grpcTransport.t) : Protocol := GRPC.

Definition requestToYARPCStreamRequest (t : option grpcTransport.t)
      (streamRequest : option StreamRequest.t) : option yarpc.StreamRequest.t :=
    match t, streamRequest with
    | Some t, Some streamRequest =>
      match StreamRequest.Request streamRequest with
      | Some request =>
        Some {| yarpc.StreamRequest.Meta := Some {|
          yarpc.RequestMeta.Caller := grpcTransport.Caller t;
          yarpc.RequestMeta.Service := Request.TargetService request;
          yarpc.RequestMeta.Encoding := grpcTransport.Encoding t;
          yarpc.RequestMeta.Procedure := Request.Method request;
          yarpc.RequestMeta.Headers := headersFromMap w (Request.Headers request);
          yarpc.RequestMeta.ShardKey := Request.ShardKey request;
          yarpc.RequestMeta.RoutingKey := grpcTransport.RoutingKey t;
          yarpc.RequestMeta.RoutingDelegate := grpcTransport.RoutingDelegate t
        |} |}
      | None => None
      end
    | _, _ => None
    end.

Definition requestToYARPCRequest (t : grpcTransport.t) (request : Request.t)
    : yarpc.Request.t :=
    {| yarpc.Request.Caller := grpcTransport.Caller t;
       yarpc.Request.Service := Request.TargetService request;
       yarpc.Request.Encoding := grpcTransport.Encoding t;
       yarpc.Request.Procedure := Request.Method request;
       yarpc.Request.Headers := headersFromMap w (Request.Headers request);
       yarpc.Request.ShardKey := Request.ShardKey request;
       yarpc.Request.RoutingKey := grpcTransport.RoutingKey t;
       yarpc.Request.RoutingDelegate := grpcTransport.RoutingDelegate t;
       yarpc.Request.Body := Request.Body request |}.

Definition requestContextWithTimeout (ctx : Context) (request : Request.t)
    : Context * CancelFunc :=
    match Deadline ctx with
    | Some _ => (ctx, cancelNoop)
    | None =>
      let timeout := Second in
      let timeout := if bool_decide (Request.Timeout request > 0)
                     then Request.Timeout request else timeout in
      context_WithTimeout (now w) ctx timeout
    end.

Definition yarpcResponseToResponse (transportResponse : option yarpc.Response.t)
    : Run (option Response.t * option error) :=
    transportResponse ← deref transportResponse;
    let response := {|
      Response.Headers := yarpc.Items (yarpc.Response.Headers transportResponse);
      Response.Body := []
    |} in
    match yarpc.Response.Body transportResponse with
    | Some Body =>
      '(body, err) ← ioutil_ReadAll Body;
      match err with
      | Some err => mret (None, Some err)
      | None =>
        err ← Body_Close Body;
        match err with
        | Some err => mret (None, Some err)
        | None =>
          mret (Some {| Response.Headers := Response.Headers response;
                        Response.Body := body |}, None)
        end
      end
    | None => mret (Some response, None)
    end.

Definition Call (t : option grpcTransport.t) (ctx : Context) (request : option Request.t)
    : Run (option Response.t * option error) :=
    request ← deref request;
    if decide (Request.TargetService request = "") then
      mret (None, Some errGRPCNoService)
    else if decide (Request.Method request = "") then
      mret (None, Some errGRPCNoProcedure)
    else
      let '(ctx, cancel) := requestContextWithTimeout ctx request in
      defer (emit (EvCancel cancel)) (
        t ← deref t;
        '(transportResponse, err) ←
          Outbound_Call (grpcTransport.Outbound t) ctx (requestToYARPCRequest t request);
        match err with
        | Some err => mret (None, Some err)
        | None => yarpcResponseToResponse transportResponse
        end).

Definition CallStream (t : option grpcTransport.t) (ctx : Context)
      (request : option StreamRequest.t)
    : Run (option yarpc.ClientStream * option error) :=
    let translated := requestToYARPCStreamRequest t request in
    t ← deref t;
    Outbound_CallStream (grpcTransport.StreamOutbound t) ctx translated.

Definition Close (t : option grpcTransport.t) : Run (option error) :=
    t ← deref t;
    e1 ← Transport_Stop (grpcTransport.Transport t);
    e2 ← Outbound_Stop (grpcTransport.Outbound t);
    mret (multierr_Combine [e1; e2]).

End Calls.

(** ** Reading traces *)

(** Events of the TLS material: reading the CA file, loading the key pair,
    making the TLS dialer. *)
Definition isTLSEvent (ev : Event) : bool :=
  match ev with
  | EvReadFile _ | EvLoadX509KeyPair _ _ | EvNewDialer _ _ => true
  | _ => false
  end.

(** Events in which an outbound is created, started or called. *)
Definition isOutboundEvent (ev : Event) : bool :=
  match ev with
  | EvNewOutbound _ _ | EvOutboundStart _ | EvOutboundStop _
  | EvOutboundCall _ _ | EvOutboundCallStream _ _ => true
  | _ => false
  end.

(** Events in which a resource is started. *)
Definition isStartEvent (ev : Event) : bool :=
  match ev with
  | EvTransportStart _ | EvOutboundStart _ => true
  | _ => false
  end.

(** Which resources a trace leaves started: the transport and the outbound.
    A resource is started by a [Start] that answers [nil]; a [Stop] call
    ends that, whatever it answers (stopping is best effort). *)
Definition stepStarted (st : bool * bool) (ev : Event) : bool * bool :=
  match ev with
  | EvTransportStart None => (true, st.2)
  | EvOutboundStart None => (st.1, true)
  | EvTransportStop _ => (false, st.2)
  | EvOutboundStop _ => (st.1, false)
  | _ => st
  end.

Definition leftStarted (tr : list Event) : bool * bool :=
  foldl stepStarted (false, false) tr.

(** [multierr.Errors]: the errors an error value aggregates. *)
Definition multierr_Errors (err : option error) : list error :=
  match err with
  | None => []
  | Some e => flattenError e
  end.

(** The three required fields of [GRPCOptions] are present. *)
Definition requiredPresent (options : GRPCOptions.t) : Prop :=
  GRPCOptions.Addresses options ≠ [] ∧
  GRPCOptions.Tracer options ≠ None ∧
  GRPCOptions.Caller options ≠ "".

#[global] Instance requiredPresent_dec (options : GRPCOptions.t)
  : Decision (requiredPresent options).
Proof. unfold requiredPresent. apply _. Defined.

(** All three TLS paths are given. *)
Definition secureMode (options : GRPCOptions.t) : Prop :=
  GRPCOptions.CAPath options ≠ "" ∧
  GRPCOptions.CertPath options ≠ "" ∧
  GRPCOptions.PrivateKeyPath options ≠ "".

(** The options with the three TLS paths emptied. *)
Definition withoutTLS (options : GRPCOptions.t) : GRPCOptions.t :=
  {| GRPCOptions.Addresses := GRPCOptions.Addresses options;
     GRPCOptions.Tracer := GRPCOptions.Tracer options;
     GRPCOptions.Caller := GRPCOptions.Caller options;
     GRPCOptions.Encoding := GRPCOptions.Encoding options;
     GRPCOptions.RoutingKey := GRPCOptions.RoutingKey options;
     GRPCOptions.RoutingDelegate := GRPCOptions.RoutingDelegate options;
     GRPCOptions.MaxResponseSize := GRPCOptions.MaxResponseSize options;
     GRPCOptions.CAPath := "";
     GRPCOptions.CertPath := "";
     GRPCOptions.PrivateKeyPath := "" |}.

(** ** Sample inputs *)

Definition ofString (s : string) : bytes := String.list_byte_of_string s.

Definition sampleCert : TLSCertificate := mkTLSCertificate [ofString "leaf"] (ofString "key").

(** A world with one CA file holding two certificates (one of them twice),
    one loadable key pair, and an engine whose starts answer as given. *)
Definition sampleWorldWith (transportStart outboundStart : option error) : World := {|
  now := 100;
  readFile := fun p =>
    if decide (p = "ca.pem") then (ofString "PEM", None)
    else if decide (p = "empty.pem") then ([], None)
    else ([], Some (errorString "open: no such file"));
  parseCertsPEM := fun d =>
    if decide (d = ofString "PEM") then [ofString "c1"; ofString "c2"; ofString "c1"] else [];
  loadX509KeyPair := fun c k =>
    if decide (c = "cert.pem") then (sampleCert, None)
    else (mkTLSCertificate [] [], Some (errorString "bad pair"));
  headersFromMap := fun m => yarpc.mkHeaders (map_to_list m);
  transportStart := transportStart;
  outboundStart := outboundStart;
  transportStop := Some (errorString "transport stop");
  outboundStop := Some (errorString "outbound stop");
  outboundCall := fun _ _ => (None, Some (errorString "unavailable"));
  outboundCallStream := fun _ _ => (Some (yarpc.mkClientStream 7), None)
|}.

(** The transport starts, the outbound does not. *)
Definition sampleWorld : World :=
  sampleWorldWith None (Some (errorString "outbound start")).

Definition sampleOptions (ca cert key : string) : GRPCOptions.t :=
  GRPCOptions.mk ["a:1"; "b:2"] (Some (mkTracer "t")) "svc" "proto" "" "" 0 ca cert key.

(** A transport as [newGRPC] returns it for [sampleOptions] without TLS. *)
Definition sampleTransport : grpcTransport.t :=
  let transport := mkGrpcTransport [grpc_Tracer (mkTracer "t")] in
  let outbound := mkGrpcOutbound transport
    (mkChooser (peerBase transport) [hostport_Identify "a:1"; hostport_Identify "b:2"]) in
  grpcTransport.mk transport outbound outbound "svc" "proto" "" "" (Some (mkTracer "t")).

Definition sampleHeaders : yarpc.Headers :=
  yarpc.mkHeaders [("k1", "v1"); ("k2", "v2")].

(** A body stream delivering "ab" and then "c". *)
Definition sampleBody (readEnd closeErr : option error) : yarpc.ReadCloser :=
  yarpc.mkReadCloser [ofString "ab"; ofString "c"] readEnd closeErr.

Definition sampleWire (h : yarpc.Headers) (body : option yarpc.ReadCloser)
  : yarpc.Response.t :=
  yarpc.Response.mk h body.

Definition sampleRequest (service method : string) (timeout : Duration) : Request.t :=
  Request.mk service method ∅ "" timeout [].

(** ** Further definitions *)

(** [peersToIdentifiers] statement by statement: a slice of [len(peers)]
    nil identifiers is made, and the loop over [peers] writes the identifier
    of each peer at the index of that peer. A slot is an [option], [None]
    for the nil interface value [make] fills the slice with. *)
Definition peersToIdentifiers_loop (peers : list string) : list (option Identifier) :=
  let identifiers := replicate (length peers) None in
  foldl (λ identifiers '(i, peer), <[i := Some (hostport_Identify peer)]> identifiers)
    identifiers (imap pair peers).

(** Events of the construction phase: objects are made and TLS files read,
    nothing is started, stopped or called. *)
Definition isSetupEvent (ev : Event) : bool :=
  match ev with
  | EvNewTransport _ | EvReadFile _ | EvLoadX509KeyPair _ _
  | EvNewDialer _ _ | EvNewOutbound _ _ => true
  | _ => false
  end.

(** The TLS material of secure mode loads: the CA file is read, at least
    one certificate is parsed out of it, and the client key pair loads. *)
Definition tlsMaterialLoads (w : World) (options : GRPCOptions.t) : Prop :=
  (readFile w (GRPCOptions.CAPath options)).2 = None ∧
  parseCertsPEM w (readFile w (GRPCOptions.CAPath options)).1 ≠ [] ∧
  (loadX509KeyPair w (GRPCOptions.CertPath options)
     (GRPCOptions.PrivateKeyPath options)).2 = None.

(** The request passes the checks of [Call]. *)
Definition requestValid (request : Request.t) : Prop :=
  Request.TargetService request ≠ "" ∧ Request.Method request ≠ "".

(** [sampleWorld] with an outbound that answers every call with [answer]. *)
Definition sampleWorldAnswering (answer : option yarpc.Response.t * option error) : World := {|
  now := now sampleWorld;
  readFile := readFile sampleWorld;
  parseCertsPEM := parseCertsPEM sampleWorld;
  loadX509KeyPair := loadX509KeyPair sampleWorld;
  headersFromMap := headersFromMap sampleWorld;
  transportStart := None;
  outboundStart := None;
  transportStop := None;
  outboundStop := None;
  outboundCall := fun _ _ => answer;
  outboundCallStream := outboundCallStream sampleWorld
|}.

(** ** Properties *)

(** Unfolds the monad and the engine calls, so that a run becomes a term on
    the initial trace. *)
Ltac run_unfold :=
  unfold Call, CallStream, Close, NewGRPC, newGRPC, newGRPC_bind, newGRPC_start,
    yarpcResponseToResponse, Tracer,
    grpc_NewTransport, ioutil_ReadFile, tls_LoadX509KeyPair, NewDialer, NewOutbound,
    Transport_Start, Outbound_Start, Transport_Stop, Outbound_Stop,
    Outbound_Call, Outbound_CallStream, ioutil_ReadAll, Body_Close,
    defer, deref, panic, emit, mbind, Run_bind, mret, Run_ret in *.

Ltac run := run_unfold; simpl in *.

Lemma app_assoc_cons {A : Type} (l k : list A) (x : A) : (l ++ [x]) ++ k = l ++ x :: k.
Proof. by rewrite <- app_assoc. Qed.

(** Brings a trace into the form [tr ++ e1 :: e2 :: ...]. *)
Ltac trace_norm := rewrite ?app_assoc_cons, ?app_nil_r.

Section Timeout.
Context (w : World).

Lemma Deadline_WithTimeout ctx timeout :
    Deadline ctx = None →
    context_WithTimeout (now w) ctx timeout
    = (timerCtx ctx (now w + timeout), cancelOf (timerCtx ctx (now w + timeout))).
  Proof. intros H. unfold context_WithTimeout, context_WithDeadline. by rewrite H. Qed.

  (** C1. Timeout derivation of a unary call. A context that carries a
      deadline is passed through unchanged, with a cancel function that does
      nothing, whatever [request.Timeout] is. Without a deadline, a positive
      [request.Timeout] is applied as the timeout, and any other value gives
      a timeout of exactly one second. In each case the derived context is
      the one [Call] hands to the outbound. *)
Theorem requestContextWithTimeout_policy (ctx : Context) (request : Request.t) :
    (∀ d, Deadline ctx = Some d →
       requestContextWithTimeout w ctx request = (ctx, cancelNoop)) ∧
    (Deadline ctx = None → Request.Timeout request > 0 →
       requestContextWithTimeout w ctx request
         = context_WithTimeout (now w) ctx (Request.Timeout request) ∧
       Deadline (requestContextWithTimeout w ctx request).1
         = Some (now w + Request.Timeout request)) ∧
    (Deadline ctx = None → Request.Timeout request ≤ 0 →
       requestContextWithTimeout w ctx request
         = context_WithTimeout (now w) ctx Second ∧
       Deadline (requestContextWithTimeout w ctx request).1
         = Some (now w + 1000000000)) ∧
    (∀ t tr, Request.TargetService request ≠ "" → Request.Method request ≠ "" →
       ∃ o rest,
         Call w (Some t) ctx (Some request) tr
         = (o, tr ++ EvOutboundCall (requestContextWithTimeout w ctx request).1
                       (requestToYARPCRequest w t request) :: rest)).
  Proof.
    repeat split.
    - intros d Hd. unfold requestContextWithTimeout. by rewrite Hd.
    - unfold requestContextWithTimeout. rewrite H.
      by rewrite bool_decide_eq_true_2.
    - unfold requestContextWithTimeout. rewrite H.
      rewrite bool_decide_eq_true_2 by done.
      by rewrite Deadline_WithTimeout.
    - unfold requestContextWithTimeout. rewrite H.
      rewrite bool_decide_eq_false_2 by lia. done.
    - unfold requestContextWithTimeout. rewrite H.
      rewrite bool_decide_eq_false_2 by lia.
      by rewrite Deadline_WithTimeout.
    - intros t tr Hs Hm. run.
      destruct (decide (Request.TargetService request = "")) as [|_]; [done|].
      destruct (decide (Request.Method request = "")) as [|_]; [done|].
      destruct (requestContextWithTimeout w ctx request) as [ctx' cancel]. simpl.
      destruct (outboundCall w ctx' (requestToYARPCRequest w t request)) as [resp [e|]];
        simpl.
      + eexists _, _. by trace_norm.
      + destruct resp as [resp|]; simpl.
        * destruct (yarpc.Response.Body resp) as [body|]; simpl.
          -- destruct (yarpc.readEnd body); simpl;
               [|destruct (yarpc.closeErr body); simpl];
               eexists _, _; by trace_norm.
          -- eexists _, _. by trace_norm.
        * eexists _, _. by trace_norm.
  Qed.

End Timeout.

Lemma requestContextWithTimeout_policy_witness :
  requestContextWithTimeout sampleWorld (timerCtx Background 5) (sampleRequest "s" "m" (-3))
    = (timerCtx Background 5, cancelNoop) ∧
  Deadline (requestContextWithTimeout sampleWorld (valueCtx Background "k" "v")
              (sampleRequest "s" "m" 250)).1 = Some (100 + 250) ∧
  Deadline (requestContextWithTimeout sampleWorld Background (sampleRequest "s" "m" 0)).1
    = Some (100 + 1000000000) ∧
  ∃ o rest,
    Call sampleWorld (Some sampleTransport) Background (Some (sampleRequest "s" "m" 0)) []
    = (o, [] ++ EvOutboundCall
                  (requestContextWithTimeout sampleWorld Background
                     (sampleRequest "s" "m" 0)).1
                  (requestToYARPCRequest sampleWorld sampleTransport
                     (sampleRequest "s" "m" 0)) :: rest).
Proof.
  split; [|split; [|split]].
  - apply (proj1 (requestContextWithTimeout_policy sampleWorld (timerCtx Background 5)
                    (sampleRequest "s" "m" (-3))) 5).
    reflexivity.
  - apply (proj1 (proj2 (requestContextWithTimeout_policy sampleWorld
                           (valueCtx Background "k" "v") (sampleRequest "s" "m" 250)))).
    + reflexivity.
    + simpl. lia.
  - apply (proj1 (proj2 (proj2 (requestContextWithTimeout_policy sampleWorld Background
                                  (sampleRequest "s" "m" 0))))).
    + reflexivity.
    + simpl. lia.
  - apply (proj2 (proj2 (proj2 (requestContextWithTimeout_policy sampleWorld Background
                                  (sampleRequest "s" "m" 0))))).
    + simpl. discriminate.
    + simpl. discriminate.
Defined.

Section Validation.
Context (w : World).


(** C3. A unary [Call] whose request has an empty target service, or a
    service but an empty method, returns a nil response with the error of
    the missing field (service checked before method, the two errors
    distinct); the trace is left as it was, so the outbound is not called.
    This holds for every receiver, a nil one included. *)
Theorem Call_required_fields (t : option grpcTransport.t) (ctx : Context)
    (request : Request.t) (tr : list Event) :
  (Request.TargetService request = "" →
     Call w t ctx (Some request) tr = (Returned (None, Some errGRPCNoService), tr)) ∧
  (Request.TargetService request ≠ "" → Request.Method request = "" →
     Call w t ctx (Some request) tr = (Returned (None, Some errGRPCNoProcedure), tr)) ∧
  errGRPCNoService ≠ errGRPCNoProcedure.
Proof.
  split; [|split].
  - intros Hs. run. by rewrite decide_True.
  - intros Hs Hm. run. rewrite decide_False by done. by rewrite decide_True.
  - done.
Qed.

End Validation.


Lemma Call_required_fields_witness :
  Call sampleWorld None Background (Some (sampleRequest "" "" 0)) []
    = (Returned (None, Some errGRPCNoService), []) ∧
  Call sampleWorld None Background (Some (sampleRequest "svc" "" 0)) []
    = (Returned (None, Some errGRPCNoProcedure), []).
Proof.
  split.
  - apply (proj1 (Call_required_fields sampleWorld None Background
                    (sampleRequest "" "" 0) [])).
    reflexivity.
  - apply (proj1 (proj2 (Call_required_fields sampleWorld None Background
                           (sampleRequest "svc" "" 0) []))).
    + simpl. discriminate.
    + reflexivity.
Defined.

Section Shutdown.
Context (w : World).

Lemma multierr_Combine_pair (e1 e2 : option error) :
  multierr_Errors (multierr_Combine [e1; e2]) = multierr_Errors e1 ++ multierr_Errors e2.
Proof.
  destruct e1 as [e1|], e2 as [e2|]; unfold multierr_Combine; simpl;
    by rewrite ?app_nil_r.
Qed.

(** C6. [Close] calls [Stop] on the transport and then on the outbound,
    whatever the first call answers, and returns the combination of the two
    answers: nil when both are nil, the one error when one stop fails, and
    when both fail an aggregate holding the transport's error followed by
    the outbound's. *)
Theorem Close_stops_both (t : grpcTransport.t) (tr : list Event) :
  Close w (Some t) tr
    = (Returned (multierr_Combine [transportStop w; outboundStop w]),
       tr ++ [EvTransportStop (transportStop w); EvOutboundStop (outboundStop w)]) ∧
  multierr_Errors (multierr_Combine [transportStop w; outboundStop w])
    = multierr_Errors (transportStop w) ++ multierr_Errors (outboundStop w) ∧
  (multierr_Combine [transportStop w; outboundStop w] = None
     ↔ transportStop w = None ∧ outboundStop w = None) ∧
  (∀ e1 e2, transportStop w = Some e1 → outboundStop w = Some e2 →
     multierr_Combine [transportStop w; outboundStop w]
       = Some (multiError (flattenError e1 ++ flattenError e2)) ∧
     ∀ s1 s2, e1 = errorString s1 → e2 = errorString s2 →
       multierr_Combine [transportStop w; outboundStop w]
         = Some (multiError [e1; e2])).
Proof.
  split; [|split; [|split]].
  - run. by trace_norm.
  - apply multierr_Combine_pair.
  - destruct (transportStop w), (outboundStop w); unfold multierr_Combine; simpl;
      split; (done || by intros [??]).
  - intros e1 e2 -> ->. unfold multierr_Combine. simpl. rewrite app_nil_r.
    split; [done|]. by intros s1 s2 -> ->.
Qed.

End Shutdown.

Lemma Close_stops_both_witness :
  Close sampleWorld (Some sampleTransport) []
    = (Returned (Some (multiError [errorString "transport stop";
                                   errorString "outbound stop"])),
       [EvTransportStop (Some (errorString "transport stop"));
        EvOutboundStop (Some (errorString "outbound stop"))]).
Proof.
  destruct (Close_stops_both sampleWorld sampleTransport []) as (Hrun & _ & _ & Hboth).
  rewrite Hrun.
  destruct (Hboth (errorString "transport stop") (errorString "outbound stop")
              eq_refl eq_refl) as [_ Hagg].
  by rewrite (Hagg "transport stop" "outbound stop" eq_refl eq_refl).
Defined.

(** C7. Translating a wire response. The headers of the returned response
    are the header items of the wire response, in their order. Without a
    body stream, the body is empty and nothing is read. With a body stream,
    the stream is read to its end and then closed; a read error is returned
    with a nil response (the stream is then not closed), a close error
    is returned with a nil response, and otherwise the body of the response
    is everything that was read. *)
Theorem yarpcResponseToResponse_body (transportResponse : yarpc.Response.t)
    (tr : list Event) :
  (yarpc.Response.Body transportResponse = None →
     yarpcResponseToResponse (Some transportResponse) tr
       = (Returned (Some {|
            Response.Headers := yarpc.Items (yarpc.Response.Headers transportResponse);
            Response.Body := [] |}, None), tr)) ∧
  (∀ body, yarpc.Response.Body transportResponse = Some body →
     (∀ e, yarpc.readEnd body = Some e →
        yarpcResponseToResponse (Some transportResponse) tr
          = (Returned (None, Some e), tr ++ [EvReadAll])) ∧
     (∀ e, yarpc.readEnd body = None → yarpc.closeErr body = Some e →
        yarpcResponseToResponse (Some transportResponse) tr
          = (Returned (None, Some e), tr ++ [EvReadAll; EvBodyClose])) ∧
     (yarpc.readEnd body = None → yarpc.closeErr body = None →
        yarpcResponseToResponse (Some transportResponse) tr
          = (Returned (Some {|
               Response.Headers := yarpc.Items (yarpc.Response.Headers transportResponse);
               Response.Body := concat (yarpc.chunks body) |}, None),
             tr ++ [EvReadAll; EvBodyClose]))).
Proof.
  split.
  - intros Hb. run. by rewrite Hb.
  - intros body Hb. run. rewrite Hb. simpl. repeat split.
    + by intros e ->.
    + intros e -> ->. simpl. by trace_norm.
    + intros -> ->. simpl. by trace_norm.
Qed.

Section Stream.
Context (w : World).

(** C8. The stream translation answers nil, not an error, for a nil
    receiver, for a nil stream request and for a stream request whose inner
    request is nil; any inner request, whatever its service and method, is
    translated. [CallStream] validates nothing: it makes exactly one call
    to the stream outbound, with the translated request, and returns the
    stream and the error of that call. *)
Theorem CallStream_delegates (t : grpcTransport.t) (ctx : Context)
    (streamRequest : option StreamRequest.t) (tr : list Event) :
  requestToYARPCStreamRequest w None streamRequest = None ∧
  requestToYARPCStreamRequest w (Some t) None = None ∧
  requestToYARPCStreamRequest w (Some t) (Some (StreamRequest.mk None)) = None ∧
  (∀ request, ∃ meta,
     requestToYARPCStreamRequest w (Some t) (Some (StreamRequest.mk (Some request)))
       = Some (yarpc.StreamRequest.mk (Some meta)) ∧
     yarpc.RequestMeta.Service meta = Request.TargetService request ∧
     yarpc.RequestMeta.Procedure meta = Request.Method request) ∧
  CallStream w (Some t) ctx streamRequest tr
    = (Returned (outboundCallStream w ctx
                   (requestToYARPCStreamRequest w (Some t) streamRequest)),
       tr ++ [EvOutboundCallStream ctx
                (requestToYARPCStreamRequest w (Some t) streamRequest)]).
Proof.
  repeat split.
  intros request. eexists. by repeat split.
Qed.

End Stream.

Lemma yarpcResponseToResponse_body_witness :
  yarpcResponseToResponse (Some (sampleWire sampleHeaders (Some (sampleBody None None)))) []
  = (Returned (Some (Response.mk [("k1", "v1"); ("k2", "v2")] (ofString "abc")), None),
     [EvReadAll; EvBodyClose]) ∧
  yarpcResponseToResponse
    (Some (sampleWire sampleHeaders (Some (sampleBody (Some (errorString "reset")) None)))) []
  = (Returned (None, Some (errorString "reset")), [EvReadAll]) ∧
  yarpcResponseToResponse
    (Some (sampleWire sampleHeaders (Some (sampleBody None (Some (errorString "close")))))) []
  = (Returned (None, Some (errorString "close")), [EvReadAll; EvBodyClose]) ∧
  yarpcResponseToResponse (Some (sampleWire sampleHeaders None)) []
  = (Returned (Some (Response.mk [("k1", "v1"); ("k2", "v2")] []), None), []).
Proof.
  split; [|split; [|split]].
  - apply (proj2 (yarpcResponseToResponse_body
                    (sampleWire sampleHeaders (Some (sampleBody None None))) [])
             (sampleBody None None) eq_refl);
      reflexivity.
  - apply (proj2 (yarpcResponseToResponse_body
                    (sampleWire sampleHeaders
                       (Some (sampleBody (Some (errorString "reset")) None))) [])
             (sampleBody (Some (errorString "reset")) None) eq_refl).
    reflexivity.
  - apply (proj2 (yarpcResponseToResponse_body
                    (sampleWire sampleHeaders
                       (Some (sampleBody None (Some (errorString "close"))))) [])
             (sampleBody None (Some (errorString "close"))) eq_refl);
      reflexivity.
  - apply (proj1 (yarpcResponseToResponse_body (sampleWire sampleHeaders None) [])).
    reflexivity.
Defined.

Section Construction.
Context (w : World).

(** The start phase, case by case. *)
Lemma newGRPC_start_run options transport outbound tr :
  newGRPC_start w options transport outbound tr =
  match transportStart w, outboundStart w with
  | Some e, _ => (Returned (None, Some e), tr ++ [EvTransportStart (Some e)])
  | None, Some e =>
    (Returned (None, Some e),
     tr ++ [EvTransportStart None; EvOutboundStart (Some e);
            EvTransportStop (transportStop w)])
  | None, None =>
    (Returned (Some (grpcTransport.mk transport outbound outbound
                       (GRPCOptions.Caller options) (GRPCOptions.Encoding options)
                       (GRPCOptions.RoutingKey options)
                       (GRPCOptions.RoutingDelegate options)
                       (GRPCOptions.Tracer options)), None),
     tr ++ [EvTransportStart None; EvOutboundStart None])
  end.
Proof.
  run. destruct (transportStart w); simpl; [done|].
  destruct (outboundStart w); simpl; by trace_norm.
Qed.

Lemma newGRPC_bind_run options transport peerTransport tr :
  newGRPC_bind w options transport peerTransport tr =
  let chooser := mkChooser peerTransport (peersToIdentifiers (GRPCOptions.Addresses options)) in
  newGRPC_start w options transport (mkGrpcOutbound transport chooser)
    (tr ++ [EvNewOutbound transport chooser]).
Proof. reflexivity. Qed.

(** With the required fields present, [newGRPC] gets past validation and
    constructs the transport. *)
Lemma newGRPC_validated options tr :
  requiredPresent options →
  ∃ optionsTracer, GRPCOptions.Tracer options = Some optionsTracer ∧
    newGRPC w options tr =
    let transport := mkGrpcTransport (newGRPC_transportOptions options optionsTracer) in
    let tr1 := tr ++ [EvNewTransport (newGRPC_transportOptions options optionsTracer)] in
    if bool_decide (GRPCOptions.CAPath options ≠ "")
       && bool_decide (GRPCOptions.CertPath options ≠ "")
       && bool_decide (GRPCOptions.PrivateKeyPath options ≠ "")
    then
      let tr2 := tr1 ++ [EvReadFile (GRPCOptions.CAPath options)] in
      match readFile w (GRPCOptions.CAPath options) with
      | (_, Some err) => (Returned (None, Some (fmt_Errorf_v "could not load ca " err)), tr2)
      | (ca, None) =>
        if negb (AppendCertsFromPEM w x509_NewCertPool ca).2
        then (Returned (None, Some (errors_New "failed to append ca")), tr2)
        else
          let tr3 := tr2 ++ [EvLoadX509KeyPair (GRPCOptions.CertPath options)
                                               (GRPCOptions.PrivateKeyPath options)] in
          match loadX509KeyPair w (GRPCOptions.CertPath options)
                                  (GRPCOptions.PrivateKeyPath options) with
          | (_, Some err) =>
            (Returned (None, Some (fmt_Errorf_v "failed to load X509 keypair " err)), tr3)
          | (clientCert, None) =>
            let dialOptions := [grpc_DialerTLSConfig {|
              RootCAs := (AppendCertsFromPEM w x509_NewCertPool ca).1;
              Certificates := [clientCert];
              InsecureSkipVerify := true |}] in
            newGRPC_bind w options transport (peerDialer transport dialOptions)
              (tr3 ++ [EvNewDialer transport dialOptions])
          end
      end
    else newGRPC_bind w options transport (peerBase transport) tr1.
Proof.
  intros (Ha & Ht & Hc).
  destruct (GRPCOptions.Tracer options) as [optionsTracer|] eqn:Et; [|done].
  exists optionsTracer. split; [done|].
  unfold newGRPC. rewrite Et.
  destruct (GRPCOptions.Addresses options) eqn:Ea; [done|]. simpl.
  rewrite decide_False by done.
  unfold grpc_NewTransport, ioutil_ReadFile, tls_LoadX509KeyPair, NewDialer,
    emit, mbind, Run_bind, mret, Run_ret. simpl.
  destruct (_ && _); [|done].
  destruct (readFile w _) as [ca [err|]]; simpl; [done|].
  destruct (bool_decide _); simpl; [|done].
  destruct (loadX509KeyPair w _ _) as [clientCert [err|]]; simpl; done.
Qed.

(** *** The certificate pool *)

Lemma AddCert_elem (s : CertPool) (c x : X509Cert) :
  x ∈ AddCert s c ↔ x ∈ s ∨ x = c.
Proof.
  unfold AddCert. destruct (decide (c ∈ s)) as [Hin|Hin].
  - split; [by left|]. intros [?| ->]; done.
  - rewrite elem_of_app, list_elem_of_singleton. done.
Qed.

Lemma AddCert_NoDup (s : CertPool) (c : X509Cert) :
  NoDup s → NoDup (AddCert s c).
Proof.
  intros Hs. unfold AddCert. destruct (decide (c ∈ s)) as [Hin|Hin]; [done|].
  apply NoDup_app. split; [done|]. split.
  - intros x Hx Hc. apply list_elem_of_singleton in Hc. by subst.
  - apply NoDup_singleton.
Qed.

Lemma foldl_AddCert_elem (l : list X509Cert) (s : CertPool) (x : X509Cert) :
  x ∈ foldl AddCert s l ↔ x ∈ s ∨ x ∈ l.
Proof.
  revert s. induction l as [|c l IH]; intros s; simpl.
  - split; [by left|]. intros [?|H]; [done|]. by apply elem_of_nil in H.
  - rewrite IH, AddCert_elem, elem_of_cons. tauto.
Qed.

Lemma foldl_AddCert_NoDup (l : list X509Cert) (s : CertPool) :
  NoDup s → NoDup (foldl AddCert s l).
Proof.
  revert s. induction l as [|c l IH]; intros s Hs; simpl; [done|].
  by apply IH, AddCert_NoDup.
Qed.

(** A new pool after one [AppendCertsFromPEM] holds the parsed
    certificates, each once; the call answers [true] exactly when something
    was parsed. *)
Lemma AppendCertsFromPEM_new (pemCerts : bytes) :
  (∀ c, c ∈ (AppendCertsFromPEM w x509_NewCertPool pemCerts).1
        ↔ c ∈ parseCertsPEM w pemCerts) ∧
  NoDup (AppendCertsFromPEM w x509_NewCertPool pemCerts).1 ∧
  ((AppendCertsFromPEM w x509_NewCertPool pemCerts).2 = true
   ↔ parseCertsPEM w pemCerts ≠ []).
Proof.
  unfold AppendCertsFromPEM, x509_NewCertPool. simpl. repeat split.
  - intros H. apply foldl_AddCert_elem in H as [H|H]; [|done].
    by apply elem_of_nil in H.
  - intros H. apply foldl_AddCert_elem. by right.
  - apply foldl_AddCert_NoDup, NoDup_nil_2.
  - by intros H%bool_decide_eq_true.
  - intros H. by apply bool_decide_eq_true.
Qed.

Lemma secureMode_cond options :
  bool_decide (GRPCOptions.CAPath options ≠ "")
  && bool_decide (GRPCOptions.CertPath options ≠ "")
  && bool_decide (GRPCOptions.PrivateKeyPath options ≠ "") = true
  ↔ secureMode options.
Proof.
  unfold secureMode. rewrite !andb_true_iff, !bool_decide_eq_true. tauto.
Qed.

(** C9. In secure mode, with the required fields present, the constructor
    returns a nil transport and an error telling which step failed when the
    CA file cannot be read, when no certificate can be parsed out of the CA
    bytes, and when the client key pair does not load. By then only the
    transport has been constructed: the trace holds no creation, start or
    call of an outbound, and no start of the transport. *)
Theorem newGRPC_tls_errors (options : GRPCOptions.t) (tr : list Event) :
  requiredPresent options → secureMode options →
  ∃ optionsTracer, GRPCOptions.Tracer options = Some optionsTracer ∧
  let created := EvNewTransport (newGRPC_transportOptions options optionsTracer) in
  let caRead := EvReadFile (GRPCOptions.CAPath options) in
  let pairLoaded := EvLoadX509KeyPair (GRPCOptions.CertPath options)
                                      (GRPCOptions.PrivateKeyPath options) in
  (∀ ca e, readFile w (GRPCOptions.CAPath options) = (ca, Some e) →
     newGRPC w options tr
       = (Returned (None, Some (errorString ("could not load ca " +:+ Error e))),
          tr ++ [created; caRead])) ∧
  (∀ ca, readFile w (GRPCOptions.CAPath options) = (ca, None) →
     parseCertsPEM w ca = [] →
     newGRPC w options tr
       = (Returned (None, Some (errorString "failed to append ca")),
          tr ++ [created; caRead])) ∧
  (∀ ca clientCert e, readFile w (GRPCOptions.CAPath options) = (ca, None) →
     parseCertsPEM w ca ≠ [] →
     loadX509KeyPair w (GRPCOptions.CertPath options) (GRPCOptions.PrivateKeyPath options)
       = (clientCert, Some e) →
     newGRPC w options tr
       = (Returned (None, Some (errorString ("failed to load X509 keypair " +:+ Error e))),
          tr ++ [created; caRead; pairLoaded])) ∧
  Forall (λ ev, isOutboundEvent ev = false ∧ isStartEvent ev = false)
    [created; caRead; pairLoaded].
Proof.
  intros Hreq Hsec.
  destruct (newGRPC_validated options tr Hreq) as (optionsTracer & Ht & Hrun).
  exists optionsTracer. split; [done|]. simpl in *.
  rewrite (proj2 (secureMode_cond options) Hsec) in Hrun.
  repeat split.
  - intros ca e Hr. rewrite Hrun, Hr. by trace_norm.
  - intros ca Hr Hp. rewrite Hrun, Hr.
    rewrite (bool_decide_eq_false_2 _ (λ H, H Hp)). simpl. by trace_norm.
  - intros ca clientCert e Hr Hp Hl. rewrite Hrun, Hr, Hl.
    rewrite (bool_decide_eq_true_2 _ Hp). simpl. by trace_norm.
  - repeat constructor.
Qed.

(** C4. In secure mode, when the CA file is read, at least one certificate
    is parsed out of it and the client key pair loads, the constructor makes
    one dialer, with a TLS configuration whose root pool holds exactly the
    certificates parsed from the CA file (each once), whose certificate list
    is the loaded key pair alone, and which skips verification of the
    server ([InsecureSkipVerify] is true). The outbound is bound to that
    dialer. *)
Theorem newGRPC_tls_config (options : GRPCOptions.t) (tr : list Event)
    (ca : bytes) (clientCert : TLSCertificate) :
  requiredPresent options → secureMode options →
  readFile w (GRPCOptions.CAPath options) = (ca, None) →
  parseCertsPEM w ca ≠ [] →
  loadX509KeyPair w (GRPCOptions.CertPath options) (GRPCOptions.PrivateKeyPath options)
    = (clientCert, None) →
  ∃ optionsTracer config r rest,
    GRPCOptions.Tracer options = Some optionsTracer ∧
    let transport := mkGrpcTransport (newGRPC_transportOptions options optionsTracer) in
    let dialOptions := [grpc_DialerTLSConfig config] in
    newGRPC w options tr
      = (r, tr ++ [EvNewTransport (newGRPC_transportOptions options optionsTracer);
                   EvReadFile (GRPCOptions.CAPath options);
                   EvLoadX509KeyPair (GRPCOptions.CertPath options)
                                     (GRPCOptions.PrivateKeyPath options);
                   EvNewDialer transport dialOptions;
                   EvNewOutbound transport
                     (mkChooser (peerDialer transport dialOptions)
                        (peersToIdentifiers (GRPCOptions.Addresses options)))]
              ++ rest) ∧
    Forall (λ ev, isTLSEvent ev = false) rest ∧
    (∀ c, c ∈ RootCAs config ↔ c ∈ parseCertsPEM w ca) ∧
    NoDup (RootCAs config) ∧
    Certificates config = [clientCert] ∧
    InsecureSkipVerify config = true.
Proof.
  intros Hreq Hsec Hr Hp Hl.
  destruct (newGRPC_validated options tr Hreq) as (optionsTracer & Ht & Hrun).
  destruct (AppendCertsFromPEM_new ca) as (Hpool & Hnodup & Hok).
  exists optionsTracer,
    (mkTLSConfig (AppendCertsFromPEM w x509_NewCertPool ca).1 [clientCert] true).
  cbv zeta in Hrun.
  rewrite (proj2 (secureMode_cond options) Hsec), Hr, (proj2 Hok Hp), Hl in Hrun.
  rewrite newGRPC_bind_run, newGRPC_start_run in Hrun. cbv zeta in Hrun.
  destruct (transportStart w) as [e|]; [|destruct (outboundStart w) as [e|]];
    eexists _, _; (split; [done|]); cbv zeta;
    (split; [rewrite Hrun; simpl; rewrite <- !app_assoc; simpl; reflexivity|]);
    (split; [by repeat constructor|]); done.
Qed.

Lemma newGRPC_invalid options tr :
  ¬ requiredPresent options →
  ∃ e, newGRPC w options tr = (Returned (None, Some e), tr).
Proof.
  intros Hreq. unfold requiredPresent in Hreq. run.
  destruct (GRPCOptions.Addresses options); simpl; [by eexists|].
  destruct (GRPCOptions.Tracer options); [|by eexists].
  destruct (decide (GRPCOptions.Caller options = "")); [by eexists|].
  destruct Hreq. by repeat split.
Qed.

(** C10. With the required fields present and at least one of the three TLS
    paths empty, whatever the other two are, the constructor builds the
    unsecured channel: the outbound is bound to the base transport, no TLS
    file is read and no dialer made, and the run is the one for the same
    options with all three paths empty, so that it succeeds when both
    starts do. In any run, TLS material is touched only when all three
    paths are non-empty. *)
Theorem newGRPC_partial_tls_plaintext (options : GRPCOptions.t) (tr : list Event) :
  (requiredPresent options →
   GRPCOptions.CAPath options = "" ∨ GRPCOptions.CertPath options = ""
     ∨ GRPCOptions.PrivateKeyPath options = "" →
   ∃ optionsTracer r rest,
     GRPCOptions.Tracer options = Some optionsTracer ∧
     let transport := mkGrpcTransport (newGRPC_transportOptions options optionsTracer) in
     let outbound := mkGrpcOutbound transport
       (mkChooser (peerBase transport)
          (peersToIdentifiers (GRPCOptions.Addresses options))) in
     let events := [EvNewTransport (newGRPC_transportOptions options optionsTracer);
                    EvNewOutbound transport (outboundChooser outbound)] ++ rest in
     newGRPC w options tr = (r, tr ++ events) ∧
     Forall (λ ev, isTLSEvent ev = false) events ∧
     newGRPC w options tr = newGRPC w (withoutTLS options) tr ∧
     (transportStart w = None → outboundStart w = None →
        ∃ t, r = Returned (Some t, None) ∧
             grpcTransport.Outbound t = outbound ∧
             grpcTransport.StreamOutbound t = outbound)) ∧
  (∀ r tr', newGRPC w options [] = (r, tr') →
     Exists (λ ev, isTLSEvent ev = true) tr' → secureMode options).
Proof.
  split.
  - intros Hreq Hempty.
    assert (Hns : bool_decide (GRPCOptions.CAPath options ≠ "")
                  && bool_decide (GRPCOptions.CertPath options ≠ "")
                  && bool_decide (GRPCOptions.PrivateKeyPath options ≠ "") = false).
    { apply not_true_is_false. rewrite secureMode_cond. unfold secureMode. tauto. }
    destruct (newGRPC_validated options tr Hreq) as (optionsTracer & Ht & Hrun).
    destruct (newGRPC_validated (withoutTLS options) tr Hreq) as (? & Ht' & Hrun').
    simpl in Ht'. rewrite Ht in Ht'. injection Ht' as <-.
    cbv zeta in Hrun, Hrun'. rewrite Hns in Hrun. simpl in Hrun'.
    rewrite newGRPC_bind_run, newGRPC_start_run in Hrun, Hrun'.
    cbv zeta in Hrun, Hrun'. simpl in Hrun'.
    exists optionsTracer.
    destruct (transportStart w) as [e|]; [|destruct (outboundStart w) as [e|]];
      eexists _, _; (split; [done|]); cbv zeta;
      (split; [rewrite Hrun; simpl; rewrite <- !app_assoc; simpl; reflexivity|]);
      (split; [by repeat constructor|]);
      (split; [by rewrite Hrun, Hrun'|]);
      intros; try done.
    by eexists.
  - intros r tr' Hrun Hex.
    destruct (decide (requiredPresent options)) as [Hreq|Hreq].
    + destruct (newGRPC_validated options [] Hreq) as (optionsTracer & Ht & Hrun').
      cbv zeta in Hrun'.
      destruct (bool_decide _ && bool_decide _ && bool_decide _) eqn:Hsec;
        [by apply secureMode_cond|].
      rewrite newGRPC_bind_run, newGRPC_start_run in Hrun'. cbv zeta in Hrun'.
      rewrite Hrun' in Hrun.
      destruct (transportStart w); [|destruct (outboundStart w)];
        injection Hrun as <- <-; simpl in Hex;
        repeat (apply Exists_cons in Hex as [Hex|Hex]; [done|]);
        by apply Exists_nil in Hex.
    + destruct (newGRPC_invalid options [] Hreq) as [e He].
      rewrite He in Hrun. injection Hrun as <- <-.
      by apply Exists_nil in Hex.
Qed.

(** Decides membership of an event in an explicit trace. *)
Ltac elem_inv :=
  repeat match goal with
  | H : _ ∈ [] |- _ => by apply elem_of_nil in H
  | H : _ ∈ _ :: _ |- _ => apply elem_of_cons in H as [H|H]; [try discriminate|]
  end.

Lemma not_start_elem (pre : list Event) (ev : Event) :
  Forall (λ ev, isStartEvent ev = false) pre → isStartEvent ev = true → ev ∉ pre.
Proof.
  intros Hall Hev Hin. rewrite Forall_forall in Hall.
  specialize (Hall ev Hin). congruence.
Qed.

(** Membership in a trace [pre ++ tail] whose [pre] holds no start event and
    whose [tail] is explicit. *)
Ltac in_tail H :=
  apply elem_of_app in H as [H|H];
    [exfalso; eapply not_start_elem; [eassumption| |exact H]; reflexivity|];
  elem_inv.

(** A run of the constructor returns an error before any start, or enters
    the start phase with no start made so far. *)
Lemma newGRPC_reaches_start options r tr :
  newGRPC w options [] = (r, tr) →
  ∃ pre, Forall (λ ev, isStartEvent ev = false) pre ∧
    ((∃ e, r = Returned (None, Some e) ∧ tr = pre) ∨
     (∃ transport outbound, newGRPC_start w options transport outbound pre = (r, tr))).
Proof.
  intros Hrun.
  destruct (decide (requiredPresent options)) as [Hreq|Hreq].
  - destruct (newGRPC_validated options [] Hreq) as (optionsTracer & Ht & Hrun').
    rewrite Hrun' in Hrun. clear Hrun'. cbv zeta in Hrun.
    repeat match type of Hrun with
    | (if ?b then _ else _) = _ => destruct b
    | (let (_, _) := ?p in _) = _ => destruct p as [? [?|]]
    end;
    first
    [ injection Hrun as <- <-; eexists; split; [|left; by eexists];
      simpl; by repeat constructor
    | rewrite newGRPC_bind_run in Hrun; cbv zeta in Hrun;
      eexists; split; [|right; eexists _, _; exact Hrun];
      simpl; by repeat constructor ].
  - destruct (newGRPC_invalid options [] Hreq) as [e He].
    rewrite He in Hrun. injection Hrun as <- <-.
    exists []. split; [constructor|]. left. by eexists.
Qed.

Lemma leftStarted_no_start (pre : list Event) :
  Forall (λ ev, isStartEvent ev = false) pre → leftStarted pre = (false, false).
Proof.
  unfold leftStarted. induction pre as [|ev pre IH] using rev_ind; [done|].
  intros [Hpre Hev]%Forall_app. rewrite foldl_app, (IH Hpre). simpl.
  rewrite Forall_singleton in Hev. by destruct ev.
Qed.

(** Every run of the constructor ends in one of four ways: before any
    start, on a failed transport start, on a failed outbound start followed
    by the stop of the transport, or with both started. *)
Lemma newGRPC_endings options r tr :
  newGRPC w options [] = (r, tr) →
  ∃ pre, Forall (λ ev, isStartEvent ev = false) pre ∧
         leftStarted pre = (false, false) ∧
    ((∃ e, r = Returned (None, Some e) ∧ tr = pre) ∨
     (∃ e, transportStart w = Some e ∧ r = Returned (None, Some e) ∧
           tr = pre ++ [EvTransportStart (Some e)]) ∨
     (∃ e, transportStart w = None ∧ outboundStart w = Some e ∧
           r = Returned (None, Some e) ∧
           tr = pre ++ [EvTransportStart None; EvOutboundStart (Some e);
                        EvTransportStop (transportStop w)]) ∨
     (∃ t, transportStart w = None ∧ outboundStart w = None ∧
           r = Returned (Some t, None) ∧
           tr = pre ++ [EvTransportStart None; EvOutboundStart None])).
Proof.
  intros Hrun.
  destruct (newGRPC_reaches_start options r tr Hrun)
    as (pre & Hpre & [Hearly | (transport & outbound & Hstart)]);
    exists pre; (split; [done|]); (split; [by apply leftStarted_no_start|]).
  - by left.
  - rewrite newGRPC_start_run in Hstart.
    destruct (transportStart w) as [e|]; [|destruct (outboundStart w) as [e|]];
      injection Hstart as <- <-.
    + right; left. by eexists.
    + right; right; left. by eexists.
    + right; right; right. by eexists.
Qed.

Lemma leftStarted_app (pre post : list Event) :
  leftStarted (pre ++ post) = foldl stepStarted (leftStarted pre) post.
Proof. unfold leftStarted. by rewrite foldl_app. Qed.

(** C5. Start failures during construction. If the start of the transport
    fails, its error is returned with a nil transport and it is the last
    engine call: the outbound is never started. If the transport starts and
    the start of the outbound fails, the run ends with the stop of the
    transport, whose answer is not looked at, and the error of the outbound
    is returned. No failed construction leaves a resource started (a
    resource being left started when its [Start] answered nil and no [Stop]
    was called on it since); a successful one leaves both started. *)
Theorem newGRPC_start_failures (options : GRPCOptions.t)
    (r : outcome (option grpcTransport.t * option error)) (tr : list Event) :
  newGRPC w options [] = (r, tr) →
  (∀ e, EvTransportStart (Some e) ∈ tr →
     r = Returned (None, Some e) ∧
     (∀ x, EvOutboundStart x ∉ tr) ∧
     ∃ pre, tr = pre ++ [EvTransportStart (Some e)]) ∧
  (∀ e, EvOutboundStart (Some e) ∈ tr →
     r = Returned (None, Some e) ∧
     ∃ pre, tr = pre ++ [EvTransportStart None; EvOutboundStart (Some e);
                         EvTransportStop (transportStop w)]) ∧
  (∀ e, r = Returned (None, Some e) → leftStarted tr = (false, false)) ∧
  (∀ t, r = Returned (Some t, None) → leftStarted tr = (true, true)).
Proof.
  intros Hrun.
  destruct (newGRPC_endings options r tr Hrun)
    as (pre & Hpre & Hleft & [(e0 & -> & ->) | [(e0 & Hts & -> & ->)
         | [(e0 & Hts & Hos & -> & ->) | (t0 & Hts & Hos & -> & ->)]]]);
    (split; [intros e Hin | split; [intros e Hin | split; [intros e He | intros t He]]]);
    try discriminate;
    try (rewrite leftStarted_app, Hleft; reflexivity);
    try (exfalso; eapply not_start_elem; [exact Hpre| |exact Hin]; reflexivity);
    try done.
  - in_tail Hin. injection Hin as ->.
    split; [done|]. split; [|by eexists].
    intros x Hx. in_tail Hx.
  - in_tail Hin.
  - in_tail Hin.
  - in_tail Hin. injection Hin as ->. split; [done|]. by eexists.
  - in_tail Hin.
  - in_tail Hin.
Qed.

End Construction.

(** ** The theorems at sample inputs *)

Lemma sampleOptions_required (ca cert key : string) :
  requiredPresent (sampleOptions ca cert key).
Proof. by repeat split. Qed.

Lemma newGRPC_tls_config_witness :
  let options := sampleOptions "ca.pem" "cert.pem" "key.pem" in
  let transport := mkGrpcTransport [grpc_Tracer (mkTracer "t")] in
  ∃ config r rest,
    newGRPC sampleWorld options []
      = (r, [EvNewTransport [grpc_Tracer (mkTracer "t")];
             EvReadFile "ca.pem";
             EvLoadX509KeyPair "cert.pem" "key.pem";
             EvNewDialer transport [grpc_DialerTLSConfig config];
             EvNewOutbound transport
               (mkChooser (peerDialer transport [grpc_DialerTLSConfig config])
                  [hostport_Identify "a:1"; hostport_Identify "b:2"])] ++ rest) ∧
    (∀ c, c ∈ RootCAs config ↔ c ∈ [ofString "c1"; ofString "c2"; ofString "c1"]) ∧
    NoDup (RootCAs config) ∧
    Certificates config = [sampleCert] ∧
    InsecureSkipVerify config = true.
Proof.
  intros options transport.
  destruct (newGRPC_tls_config sampleWorld options [] (ofString "PEM") sampleCert)
    as (optionsTracer & config & r & rest & Ht & Hrun & _ & Hpool & Hnodup & Hcert & Hskip).
  - apply sampleOptions_required.
  - by repeat split.
  - reflexivity.
  - discriminate.
  - reflexivity.
  - injection Ht as <-. exists config, r, rest. repeat split; try done.
    + apply Hpool.
    + apply Hpool.
Defined.

Lemma newGRPC_tls_errors_witness :
  newGRPC sampleWorld (sampleOptions "missing.pem" "cert.pem" "key.pem") []
    = (Returned (None, Some (errorString "could not load ca open: no such file")),
       [EvNewTransport [grpc_Tracer (mkTracer "t")]; EvReadFile "missing.pem"]) ∧
  newGRPC sampleWorld (sampleOptions "empty.pem" "cert.pem" "key.pem") []
    = (Returned (None, Some (errorString "failed to append ca")),
       [EvNewTransport [grpc_Tracer (mkTracer "t")]; EvReadFile "empty.pem"]) ∧
  newGRPC sampleWorld (sampleOptions "ca.pem" "bad.pem" "key.pem") []
    = (Returned (None, Some (errorString "failed to load X509 keypair bad pair")),
       [EvNewTransport [grpc_Tracer (mkTracer "t")]; EvReadFile "ca.pem";
        EvLoadX509KeyPair "bad.pem" "key.pem"]).
Proof.
  split; [|split].
  - destruct (newGRPC_tls_errors sampleWorld
                (sampleOptions "missing.pem" "cert.pem" "key.pem") [])
      as (optionsTracer & Ht & Hread & _).
    + apply sampleOptions_required.
    + by repeat split.
    + injection Ht as <-.
      exact (Hread [] (errorString "open: no such file") eq_refl).
  - destruct (newGRPC_tls_errors sampleWorld
                (sampleOptions "empty.pem" "cert.pem" "key.pem") [])
      as (optionsTracer & Ht & _ & Hparse & _).
    + apply sampleOptions_required.
    + by repeat split.
    + injection Ht as <-. exact (Hparse [] eq_refl eq_refl).
  - destruct (newGRPC_tls_errors sampleWorld
                (sampleOptions "ca.pem" "bad.pem" "key.pem") [])
      as (optionsTracer & Ht & _ & _ & Hload & _).
    + apply sampleOptions_required.
    + by repeat split.
    + injection Ht as <-.
      refine (Hload (ofString "PEM") (mkTLSCertificate [] []) (errorString "bad pair")
                eq_refl _ eq_refl).
      discriminate.
Defined.

Lemma newGRPC_partial_tls_plaintext_witness :
  newGRPC sampleWorld (sampleOptions "ca.pem" "" "key.pem") []
    = newGRPC sampleWorld (sampleOptions "" "" "") [] ∧
  Forall (λ ev, isTLSEvent ev = false)
    (newGRPC sampleWorld (sampleOptions "ca.pem" "" "key.pem") []).2 ∧
  secureMode (sampleOptions "ca.pem" "cert.pem" "key.pem").
Proof.
  split; [|split].
  - destruct (proj1 (newGRPC_partial_tls_plaintext sampleWorld
                       (sampleOptions "ca.pem" "" "key.pem") []))
      as (optionsTracer & r & rest & _ & _ & _ & Hsame & _).
    + apply sampleOptions_required.
    + right. left. reflexivity.
    + exact Hsame.
  - destruct (proj1 (newGRPC_partial_tls_plaintext sampleWorld
                       (sampleOptions "ca.pem" "" "key.pem") []))
      as (optionsTracer & r & rest & _ & Hrun & Hnone & _).
    + apply sampleOptions_required.
    + right. left. reflexivity.
    + rewrite Hrun. exact Hnone.
  - apply (proj2 (newGRPC_partial_tls_plaintext sampleWorld
                    (sampleOptions "ca.pem" "cert.pem" "key.pem") [])
             (newGRPC sampleWorld (sampleOptions "ca.pem" "cert.pem" "key.pem") []).1
             (newGRPC sampleWorld (sampleOptions "ca.pem" "cert.pem" "key.pem") []).2).
    + reflexivity.
    + vm_compute. apply Exists_cons_tl, Exists_cons_hd. reflexivity.
Defined.

Lemma newGRPC_start_failures_witness :
  let run := newGRPC sampleWorld (sampleOptions "" "" "") [] in
  let down := newGRPC (sampleWorldWith (Some (errorString "transport start")) None)
                (sampleOptions "" "" "") [] in
  let up := newGRPC (sampleWorldWith None None) (sampleOptions "" "" "") [] in
  (run.1 = Returned (None, Some (errorString "outbound start")) ∧
   (∃ pre, run.2 = pre ++ [EvTransportStart None;
                           EvOutboundStart (Some (errorString "outbound start"));
                           EvTransportStop (Some (errorString "transport stop"))]) ∧
   leftStarted run.2 = (false, false)) ∧
  (down.1 = Returned (None, Some (errorString "transport start")) ∧
   (∀ x, EvOutboundStart x ∉ down.2) ∧
   leftStarted down.2 = (false, false)) ∧
  leftStarted up.2 = (true, true).
Proof.
  intros run down up. split; [|split].
  - destruct (newGRPC_start_failures sampleWorld (sampleOptions "" "" "")
                run.1 run.2 eq_refl) as (_ & Hob & Hleft & _).
    destruct (Hob (errorString "outbound start")) as [Hr Htr].
    + vm_compute. repeat constructor.
    + split; [exact Hr|]. split; [exact Htr|].
      exact (Hleft (errorString "outbound start") Hr).
  - destruct (newGRPC_start_failures
                (sampleWorldWith (Some (errorString "transport start")) None)
                (sampleOptions "" "" "") down.1 down.2 eq_refl) as (Htr & _ & Hleft & _).
    destruct (Htr (errorString "transport start")) as (Hr & Hnone & _).
    + vm_compute. repeat constructor.
    + split; [exact Hr|]. split; [exact Hnone|].
      exact (Hleft (errorString "transport start") Hr).
  - destruct (newGRPC_start_failures (sampleWorldWith None None)
                (sampleOptions "" "" "") up.1 up.2 eq_refl) as (_ & _ & _ & Hup).
    eapply Hup. reflexivity.
Defined.

(** ** Further properties of the adapter *)

(** *** peersToIdentifiers *)

Lemma peersToIdentifiers_loop_from (peers : list string)
    (filled : list (option Identifier)) :
  foldl (λ identifiers '(i, peer), <[i := Some (hostport_Identify peer)]> identifiers)
    (filled ++ replicate (length peers) None)
    (imap (λ i, pair (length filled + i)%nat) peers)
  = filled ++ (Some <$> peersToIdentifiers peers).
Proof.
  revert filled. induction peers as [|peer peers IH]; intros filled; [done|].
  rewrite imap_cons. simpl.
  rewrite insert_app_r. simpl.
  rewrite <- (app_assoc_cons filled (replicate (length peers) None)).
  rewrite <- (app_assoc_cons filled (list_fmap _ _ Some (peersToIdentifiers peers))).
  rewrite <- IH.
  f_equal. apply imap_ext. intros i x _. simpl. f_equal.
  rewrite length_app. simpl. lia.
Qed.

(** X1. The loop of [peersToIdentifiers] fills every slot of the slice it
    made: the result has one identifier per peer, none of them nil, the
    identifier at each index is that of the peer at the same index, so that
    order and duplicates of the address list are kept. This is the list the
    functional reading [map hostport.Identify] gives. *)
Theorem peersToIdentifiers_loop_map (peers : list string) :
  peersToIdentifiers_loop peers = Some <$> peersToIdentifiers peers ∧
  length (peersToIdentifiers peers) = length peers ∧
  (∀ i, peersToIdentifiers_loop peers !! i
        = (λ peer, Some (hostport_Identify peer)) <$> peers !! i) ∧
  (∀ i j peer, peers !! i = Some peer → peers !! j = Some peer →
     peersToIdentifiers peers !! i = peersToIdentifiers peers !! j).
Proof.
  assert (Hloop : peersToIdentifiers_loop peers = Some <$> peersToIdentifiers peers).
  { unfold peersToIdentifiers_loop.
    exact (peersToIdentifiers_loop_from peers []). }
  split; [done|]. split; [apply length_map|]. split.
  - intros i. rewrite Hloop. unfold peersToIdentifiers.
    rewrite !list_lookup_fmap. by destruct (peers !! i).
  - intros i j peer Hi Hj. unfold peersToIdentifiers.
    change (map hostport_Identify peers) with (hostport_Identify <$> peers).
    by rewrite !list_lookup_fmap, Hi, Hj.
Qed.

Lemma peersToIdentifiers_loop_map_witness :
  peersToIdentifiers ["a:1"; "b:2"; "a:1"] !! 0%nat
  = peersToIdentifiers ["a:1"; "b:2"; "a:1"] !! 2%nat.
Proof.
  apply (proj2 (proj2 (proj2 (peersToIdentifiers_loop_map ["a:1"; "b:2"; "a:1"])))
           0%nat 2%nat "a:1"); reflexivity.
Defined.

(** *** Timeouts and request translation *)

Section FurtherCall.
Context (w : World).

(** X2. The context [requestContextWithTimeout] derives always carries a
    deadline, so no unary call is made without one. It is the caller's
    context itself, with its deadline kept and a cancel function that does
    nothing, exactly when that context had a deadline; otherwise it is a
    child of the caller's context whose deadline lies strictly after the
    clock reading, [request.Timeout] or one second later. *)
Theorem requestContextWithTimeout_deadline (ctx : Context) (request : Request.t) :
  let derived := requestContextWithTimeout w ctx request in
  is_Some (Deadline derived.1) ∧
  (derived.2 = cancelNoop ↔ is_Some (Deadline ctx)) ∧
  (∀ d, Deadline ctx = Some d → derived.1 = ctx ∧ Deadline derived.1 = Some d) ∧
  (Deadline ctx = None →
     ∃ d, derived = (timerCtx ctx d, cancelOf (timerCtx ctx d)) ∧
          now w < d ∧
          (d = now w + Request.Timeout request ∨ d = now w + Second)).
Proof.
  unfold requestContextWithTimeout.
  destruct (Deadline ctx) as [d0|] eqn:Hd; simpl.
  - rewrite Hd. repeat split; try done; by eexists.
  - rewrite (Deadline_WithTimeout w ctx _ Hd). simpl.
    split; [by eexists|]. split; [|split; [done|]].
    + split; [done|]. by intros [].
    + intros _. eexists. split; [done|].
      case_bool_decide; unfold Second; (split; [lia|]); auto.
Qed.

(** X3. The stream translation and the unary translation agree on every
    metadata field: for the same transport and request, the meta of the
    stream request carries the caller, service, encoding, procedure,
    headers, shard key, routing key and routing delegate of the unary
    request. *)
Theorem stream_meta_matches_unary (t : grpcTransport.t) (request : Request.t) :
  ∃ meta,
    requestToYARPCStreamRequest w (Some t) (Some (StreamRequest.mk (Some request)))
      = Some (yarpc.StreamRequest.mk (Some meta)) ∧
    yarpc.RequestMeta.Caller meta
      = yarpc.Request.Caller (requestToYARPCRequest w t request) ∧
    yarpc.RequestMeta.Service meta
      = yarpc.Request.Service (requestToYARPCRequest w t request) ∧
    yarpc.RequestMeta.Encoding meta
      = yarpc.Request.Encoding (requestToYARPCRequest w t request) ∧
    yarpc.RequestMeta.Procedure meta
      = yarpc.Request.Procedure (requestToYARPCRequest w t request) ∧
    yarpc.RequestMeta.Headers meta
      = yarpc.Request.Headers (requestToYARPCRequest w t request) ∧
    yarpc.RequestMeta.ShardKey meta
      = yarpc.Request.ShardKey (requestToYARPCRequest w t request) ∧
    yarpc.RequestMeta.RoutingKey meta
      = yarpc.Request.RoutingKey (requestToYARPCRequest w t request) ∧
    yarpc.RequestMeta.RoutingDelegate meta
      = yarpc.Request.RoutingDelegate (requestToYARPCRequest w t request).
Proof. eexists. by repeat split. Qed.

(** A validated call on a transport, step by step. *)
Lemma Call_run (t : grpcTransport.t) (ctx : Context) (request : Request.t)
    (tr : list Event) :
  requestValid request →
  Call w (Some t) ctx (Some request) tr =
  let derived := requestContextWithTimeout w ctx request in
  let wire := requestToYARPCRequest w t request in
  let tr1 := tr ++ [EvOutboundCall derived.1 wire] in
  match outboundCall w derived.1 wire with
  | (_, Some err) => (Returned (None, Some err), tr1 ++ [EvCancel derived.2])
  | (transportResponse, None) =>
    ((yarpcResponseToResponse transportResponse tr1).1,
     (yarpcResponseToResponse transportResponse tr1).2 ++ [EvCancel derived.2])
  end.
Proof.
  intros [Hs Hm]. unfold Call, deref. simpl.
  unfold mbind at 1, Run_bind at 1, mret at 1, Run_ret at 1.
  rewrite decide_False by done. rewrite decide_False by done.
  destruct (requestContextWithTimeout w ctx request) as [ctx' cancel]. simpl.
  unfold defer, Outbound_Call, emit, mbind, Run_bind, mret, Run_ret. simpl.
  destruct (outboundCall w ctx' (requestToYARPCRequest w t request)) as [resp [e|]];
    simpl; [done|].
  by destruct (yarpcResponseToResponse resp _) as [o tr2].
Qed.

(** What translating a response adds to the trace. *)
Lemma yarpcResponseToResponse_events (transportResponse : option yarpc.Response.t)
    (tr : list Event) :
  ∃ mid, (yarpcResponseToResponse transportResponse tr).2 = tr ++ mid ∧
         (mid = [] ∨ mid = [EvReadAll] ∨ mid = [EvReadAll; EvBodyClose]).
Proof.
  destruct transportResponse as [resp|]; run.
  - destruct (yarpc.Response.Body resp) as [body|]; simpl.
    + destruct (yarpc.readEnd body); simpl;
        [exists [EvReadAll]
        |destruct (yarpc.closeErr body); simpl; exists [EvReadAll; EvBodyClose]];
        (split; [by trace_norm|]); auto.
    + exists []. rewrite app_nil_r. auto.
  - exists []. rewrite app_nil_r. auto.
Qed.

(** X4. A validated unary call on a transport makes exactly one attempt: its
    trace is one outbound call (with the derived context and the translated
    request), then at most the reading and the closing of the body, then the
    deferred cancel, which runs exactly once and last, whatever the call
    gave. *)
Theorem Call_single_attempt (t : grpcTransport.t) (ctx : Context) (request : Request.t)
    (tr : list Event) :
  requestValid request →
  ∃ o mid,
    Call w (Some t) ctx (Some request) tr
      = (o, tr ++ EvOutboundCall (requestContextWithTimeout w ctx request).1
                    (requestToYARPCRequest w t request)
                  :: mid ++ [EvCancel (requestContextWithTimeout w ctx request).2]) ∧
    (mid = [] ∨ mid = [EvReadAll] ∨ mid = [EvReadAll; EvBodyClose]).
Proof.
  intros Hvalid. rewrite (Call_run t ctx request tr Hvalid). cbv zeta.
  destruct (outboundCall w _ _) as [resp [e|]].
  - exists (Returned (None, Some e)), []. split; [|by left]. by trace_norm.
  - destruct (yarpcResponseToResponse_events resp
                (tr ++ [EvOutboundCall (requestContextWithTimeout w ctx request).1
                          (requestToYARPCRequest w t request)]))
      as (mid & -> & Hmid).
    eexists _, mid. split; [|done].
    by rewrite <- !app_assoc.
Qed.

(** X5. An error of the outbound is returned as it is, with a nil response.
    A response the outbound may have returned beside the error is dropped:
    its body is neither read nor closed. *)
Theorem Call_outbound_error (t : grpcTransport.t) (ctx : Context) (request : Request.t)
    (tr : list Event) (transportResponse : option yarpc.Response.t) (err : error) :
  requestValid request →
  outboundCall w (requestContextWithTimeout w ctx request).1
    (requestToYARPCRequest w t request) = (transportResponse, Some err) →
  Call w (Some t) ctx (Some request) tr
    = (Returned (None, Some err),
       tr ++ [EvOutboundCall (requestContextWithTimeout w ctx request).1
                (requestToYARPCRequest w t request);
              EvCancel (requestContextWithTimeout w ctx request).2]).
Proof.
  intros Hvalid Hcall. rewrite (Call_run t ctx request tr Hvalid). cbv zeta.
  rewrite Hcall. by trace_norm.
Qed.

(** X6. When the outbound answers with a response and no error, [Call]
    returns the translation of that response: its header items and, when it
    has a body that reads and closes without error, all the bytes of the
    body; without a body, an empty body and nothing read. *)
Theorem Call_success (t : grpcTransport.t) (ctx : Context) (request : Request.t)
    (tr : list Event) (transportResponse : yarpc.Response.t) :
  requestValid request →
  outboundCall w (requestContextWithTimeout w ctx request).1
    (requestToYARPCRequest w t request) = (Some transportResponse, None) →
  let called := EvOutboundCall (requestContextWithTimeout w ctx request).1
                  (requestToYARPCRequest w t request) in
  let cancelled := EvCancel (requestContextWithTimeout w ctx request).2 in
  let items := yarpc.Items (yarpc.Response.Headers transportResponse) in
  (yarpc.Response.Body transportResponse = None →
     Call w (Some t) ctx (Some request) tr
       = (Returned (Some (Response.mk items []), None), tr ++ [called; cancelled])) ∧
  (∀ body, yarpc.Response.Body transportResponse = Some body →
     yarpc.readEnd body = None → yarpc.closeErr body = None →
     Call w (Some t) ctx (Some request) tr
       = (Returned (Some (Response.mk items (concat (yarpc.chunks body))), None),
          tr ++ [called; EvReadAll; EvBodyClose; cancelled])).
Proof.
  intros Hvalid Hcall. cbv zeta.
  rewrite (Call_run t ctx request tr Hvalid). cbv zeta. rewrite Hcall.
  split.
  - intros Hb. run. rewrite Hb. simpl. by trace_norm.
  - intros body Hb Hr Hc. run. rewrite Hb. simpl. rewrite Hr. simpl. rewrite Hc.
    simpl. by trace_norm.
Qed.


(** X8. Nil pointers. [Close], [CallStream] and [Tracer] on a nil receiver,
    [Call] with a nil request and the translation of a nil wire response
    panic before any engine call. [Call] on a nil receiver with a valid
    request panics without calling the outbound, and its deferred cancel
    still runs. *)
Theorem nil_pointers_panic (t : option grpcTransport.t) (ctx : Context)
    (request : Request.t) (streamRequest : option StreamRequest.t) (tr : list Event) :
  Close w None tr = (Panicked, tr) ∧
  CallStream w None ctx streamRequest tr = (Panicked, tr) ∧
  Tracer None tr = (Panicked, tr) ∧
  Call w t ctx None tr = (Panicked, tr) ∧
  yarpcResponseToResponse None tr = (Panicked, tr) ∧
  (requestValid request →
     Call w None ctx (Some request) tr
       = (Panicked, tr ++ [EvCancel (requestContextWithTimeout w ctx request).2])).
Proof.
  repeat split. intros [Hs Hm]. run.
  rewrite decide_False by done. rewrite decide_False by done.
  by destruct (requestContextWithTimeout w ctx request).
Qed.

End FurtherCall.

(** *** The constructor, run by run *)

Arguments newGRPC_transportOptions : simpl never.

(** Case analysis of the membership of an event in an explicit trace. *)
Ltac elem_cases :=
  repeat match goal with
  | H : _ ∈ [] |- _ => by apply elem_of_nil in H
  | H : _ ∈ _ :: _ |- _ => apply elem_of_cons in H as [H|H]; [try discriminate|]
  end.

Section FurtherConstruction.
Context (w : World).

(** Splits a run of the constructor, given in the form of
    [newGRPC_validated], into its cases, down to the answers of the two
    starts. *)
Ltac newGRPC_cases Hrun :=
  cbv zeta in Hrun;
  repeat match type of Hrun with
  | (if ?b then _ else _) = _ => destruct b eqn:?
  | (let (_, _) := ?p in _) = _ => destruct p as [? [?|]] eqn:?
  end;
  rewrite ?newGRPC_bind_run, ?newGRPC_start_run in Hrun; cbv zeta in Hrun;
  repeat match type of Hrun with
  | context [match transportStart ?w0 with _ => _ end] => destruct (transportStart w0) eqn:?
  | context [match outboundStart ?w0 with _ => _ end] => destruct (outboundStart w0) eqn:?
  end.

(** X9. The constructor never panics, and it returns exactly one of a
    transport and an error. *)
Theorem newGRPC_result_shape (options : GRPCOptions.t) :
  ∃ tr, (∃ t, newGRPC w options [] = (Returned (Some t, None), tr)) ∨
        (∃ e, newGRPC w options [] = (Returned (None, Some e), tr)).
Proof.
  destruct (newGRPC w options []) as [r tr] eqn:Hrun. exists tr.
  destruct (newGRPC_endings w options r tr Hrun)
    as (pre & _ & _ & [(e & -> & _) | [(e & _ & -> & _)
         | [(e & _ & _ & -> & _) | (t & _ & _ & -> & _)]]]);
    (by left; eexists) || (by right; eexists).
Qed.

(** X10. The constructor succeeds exactly when the three required fields
    are present, the TLS material loads if all three TLS paths are given,
    and both the transport and the outbound start. *)
Theorem newGRPC_success_iff (options : GRPCOptions.t) :
  (∃ t tr, newGRPC w options [] = (Returned (Some t, None), tr)) ↔
  requiredPresent options ∧
  (secureMode options → tlsMaterialLoads w options) ∧
  transportStart w = None ∧ outboundStart w = None.
Proof.
  split.
  - intros (t & tr & Hrun).
    destruct (decide (requiredPresent options)) as [Hreq|Hreq].
    2: { destruct (newGRPC_invalid w options [] Hreq) as [e He]. congruence. }
    destruct (newGRPC_validated w options [] Hreq) as (optionsTracer & Ht & Hrun').
    rewrite Hrun' in Hrun. clear Hrun'.
    newGRPC_cases Hrun; simpl in Hrun; try discriminate;
      (split; [done|]); (split; [|done]).
    + intros _. unfold tlsMaterialLoads.
      repeat match goal with H : readFile _ _ = _ |- _ => rewrite H; clear H end.
      repeat match goal with H : loadX509KeyPair _ _ _ = _ |- _ => rewrite H; clear H end.
      simpl. repeat split.
      match goal with H : negb _ = false |- _ =>
        apply negb_false_iff, bool_decide_eq_true in H; exact H end.
    + intros Hsec%secureMode_cond. congruence.
  - intros (Hreq & Hsec & Hts & Hos).
    destruct (newGRPC_validated w options [] Hreq) as (optionsTracer & Ht & Hrun).
    cbv zeta in Hrun.
    destruct (bool_decide _ && bool_decide _ && bool_decide _) eqn:Hcond.
    + destruct (Hsec (proj1 (secureMode_cond options) Hcond)) as (Hr & Hp & Hl).
      destruct (readFile w _) as [ca o]. simpl in Hr, Hp. subst o.
      destruct (loadX509KeyPair w _ _) as [clientCert o]. simpl in Hl. subst o.
      simpl in Hrun. rewrite (bool_decide_eq_true_2 _ Hp) in Hrun. simpl in Hrun.
      rewrite newGRPC_bind_run, newGRPC_start_run, Hts, Hos in Hrun.
      by eexists _, _.
    + rewrite newGRPC_bind_run, newGRPC_start_run, Hts, Hos in Hrun.
      by eexists _, _.
Qed.

(** X11. The transport a successful construction returns holds the fixed
    configuration of the options: caller, encoding, routing key, routing
    delegate and tracer (which is then not nil and is what [Tracer]
    answers). Its unary and stream outbounds are one and the same outbound,
    made on the returned transport and bound to the identifiers of the
    addresses, in their order, over the base transport or a TLS dialer of
    it. *)
Theorem newGRPC_success_fields (options : GRPCOptions.t) (t : grpcTransport.t)
    (tr : list Event) :
  newGRPC w options [] = (Returned (Some t, None), tr) →
  grpcTransport.Caller t = GRPCOptions.Caller options ∧
  grpcTransport.Encoding t = GRPCOptions.Encoding options ∧
  grpcTransport.RoutingKey t = GRPCOptions.RoutingKey options ∧
  grpcTransport.RoutingDelegate t = GRPCOptions.RoutingDelegate options ∧
  grpcTransport.tracer t = GRPCOptions.Tracer options ∧
  is_Some (grpcTransport.tracer t) ∧
  Tracer (Some t) tr = (Returned (GRPCOptions.Tracer options), tr) ∧
  grpcTransport.StreamOutbound t = grpcTransport.Outbound t ∧
  outboundTransport (grpcTransport.Outbound t) = grpcTransport.Transport t ∧
  peer_BindPeers (outboundChooser (grpcTransport.Outbound t))
    = peersToIdentifiers (GRPCOptions.Addresses options) ∧
  (roundrobin_New (outboundChooser (grpcTransport.Outbound t))
     = peerBase (grpcTransport.Transport t) ∨
   ∃ dialOptions,
     roundrobin_New (outboundChooser (grpcTransport.Outbound t))
       = peerDialer (grpcTransport.Transport t) dialOptions).
Proof.
  intros Hrun.
  destruct (decide (requiredPresent options)) as [Hreq|Hreq].
  2: { destruct (newGRPC_invalid w options [] Hreq) as [e He]. congruence. }
  destruct (newGRPC_validated w options [] Hreq) as (optionsTracer & Ht & Hrun').
  rewrite Hrun' in Hrun. clear Hrun'.
  newGRPC_cases Hrun; simpl in Hrun; try discriminate; injection Hrun as <- <-; simpl;
    rewrite Ht; repeat split; try done; try (by eexists); try (by left).
  right. by eexists.
Qed.

(** X12. The engine calls of any run of the constructor are a construction
    phase followed by a start phase. The construction phase only makes
    objects and reads TLS files; if not empty, it begins with the one
    construction of the transport. The start phase is empty, or the failed
    start of the transport, or the start of the transport and the failed
    start of the outbound followed by the stop of the transport, or both
    starts; it is entered only once the outbound has been made. *)
Theorem newGRPC_engine_calls (options : GRPCOptions.t)
    (r : outcome (option grpcTransport.t * option error)) (tr : list Event) :
  newGRPC w options [] = (r, tr) →
  ∃ setup phase,
    tr = setup ++ phase ∧
    Forall (λ ev, isSetupEvent ev = true) setup ∧
    (setup = [] ∨
     ∃ opts rest, setup = EvNewTransport opts :: rest ∧ ∀ o, EvNewTransport o ∉ rest) ∧
    (phase = [] ∨
     (∃ e, phase = [EvTransportStart (Some e)]) ∨
     (∃ e, phase = [EvTransportStart None; EvOutboundStart (Some e);
                    EvTransportStop (transportStop w)]) ∨
     phase = [EvTransportStart None; EvOutboundStart None]) ∧
    (phase ≠ [] → ∃ transport chooser, last setup = Some (EvNewOutbound transport chooser)).
Proof.
  intros Hrun.
  destruct (decide (requiredPresent options)) as [Hreq|Hreq].
  2: { destruct (newGRPC_invalid w options [] Hreq) as [e He].
       rewrite He in Hrun. injection Hrun as <- <-.
       exists [], []. repeat split; try done; by left. }
  destruct (newGRPC_validated w options [] Hreq) as (optionsTracer & Ht & Hrun').
  rewrite Hrun' in Hrun. clear Hrun'.
  newGRPC_cases Hrun; injection Hrun as <- <-;
    lazymatch goal with
    | |- ∃ setup phase, ?TR = _ ∧ _ =>
      lazymatch TR with
      | context [EvOutboundStart None] =>
          exists (take (length TR - 2) TR), (drop (length TR - 2) TR)
      | context [EvOutboundStart (Some _)] =>
          exists (take (length TR - 3) TR), (drop (length TR - 3) TR)
      | context [EvTransportStart (Some _)] =>
          exists (take (length TR - 1) TR), (drop (length TR - 1) TR)
      | _ => exists TR, []
      end
    end;
    simpl;
    (split; [by rewrite ?app_nil_r|]);
    (split; [by repeat constructor|]);
    (split; [right; eexists _, _; split; [reflexivity|]; intros o Hin; elem_cases|]);
    (split; [|first [intros H; by destruct H | intros _; by eexists _, _]]);
    eauto 6.
Qed.

(** X13. The size limit on responses. With the required fields present, the
    first engine call constructs the transport, with the tracer option and,
    only when [MaxResponseSize] is positive, the limit on received messages;
    a zero or negative size sets no limit. *)
Theorem newGRPC_max_response_size (options : GRPCOptions.t) :
  requiredPresent options →
  ∃ optionsTracer opts r rest,
    GRPCOptions.Tracer options = Some optionsTracer ∧
    newGRPC w options [] = (r, EvNewTransport opts :: rest) ∧
    (GRPCOptions.MaxResponseSize options > 0 →
       opts = [grpc_Tracer optionsTracer;
               grpc_ClientMaxRecvMsgSize (GRPCOptions.MaxResponseSize options)]) ∧
    (GRPCOptions.MaxResponseSize options ≤ 0 → opts = [grpc_Tracer optionsTracer]).
Proof.
  intros Hreq.
  destruct (newGRPC_validated w options [] Hreq) as (optionsTracer & Ht & Hrun').
  exists optionsTracer, (newGRPC_transportOptions options optionsTracer).
  destruct (newGRPC w options []) as [r tr] eqn:Hrun. symmetry in Hrun'.
  assert (Hopts :
    (GRPCOptions.MaxResponseSize options > 0 →
       newGRPC_transportOptions options optionsTracer
       = [grpc_Tracer optionsTracer;
          grpc_ClientMaxRecvMsgSize (GRPCOptions.MaxResponseSize options)]) ∧
    (GRPCOptions.MaxResponseSize options ≤ 0 →
       newGRPC_transportOptions options optionsTracer = [grpc_Tracer optionsTracer])).
  { unfold newGRPC_transportOptions. split; intros Hn.
    - by rewrite bool_decide_eq_true_2.
    - by rewrite bool_decide_eq_false_2 by lia. }
  newGRPC_cases Hrun'; simpl in Hrun'; injection Hrun' as <- <-; by eexists _, _.
Qed.

(** X14. Construction followed by [Close]. A successful construction leaves
    the transport and the outbound started; closing the returned transport
    then calls both stops, returns their combination and leaves nothing
    started. *)
Theorem newGRPC_then_Close (options : GRPCOptions.t) (t : grpcTransport.t)
    (tr : list Event) :
  newGRPC w options [] = (Returned (Some t, None), tr) →
  leftStarted tr = (true, true) ∧
  Close w (Some t) tr
    = (Returned (multierr_Combine [transportStop w; outboundStop w]),
       tr ++ [EvTransportStop (transportStop w); EvOutboundStop (outboundStop w)]) ∧
  leftStarted (Close w (Some t) tr).2 = (false, false).
Proof.
  intros Hrun.
  assert (Hclose : Close w (Some t) tr
    = (Returned (multierr_Combine [transportStop w; outboundStop w]),
       tr ++ [EvTransportStop (transportStop w); EvOutboundStop (outboundStop w)])).
  { run. by trace_norm. }
  destruct (newGRPC_endings w options _ tr Hrun)
    as (pre & _ & Hleft & [(e & ? & _) | [(e & _ & ? & _)
         | [(e & _ & _ & ? & _) | (t0 & _ & _ & _ & ->)]]]); try discriminate.
  split; [by rewrite leftStarted_app, Hleft|]. split; [done|].
  rewrite Hclose. simpl. by rewrite !leftStarted_app, Hleft.
Qed.

End FurtherConstruction.

(** *** The further properties at sample inputs *)

Lemma requestContextWithTimeout_deadline_witness :
  (requestContextWithTimeout sampleWorld (timerCtx Background 5)
     (sampleRequest "s" "m" 250)).1 = timerCtx Background 5 ∧
  ∃ d, requestContextWithTimeout sampleWorld Background (sampleRequest "s" "m" (-1))
       = (timerCtx Background d, cancelOf (timerCtx Background d)) ∧ 100 < d.
Proof.
  split.
  - apply (proj1 (proj2 (proj2 (requestContextWithTimeout_deadline sampleWorld
                                  (timerCtx Background 5) (sampleRequest "s" "m" 250))))
             5 eq_refl).
  - destruct (proj2 (proj2 (proj2 (requestContextWithTimeout_deadline sampleWorld
                                     Background (sampleRequest "s" "m" (-1))))) eq_refl)
      as (d & Hd & Hnow & _).
    by exists d.
Defined.

Lemma sampleRequest_valid (timeout : Duration) : requestValid (sampleRequest "s" "m" timeout).
Proof. by split. Qed.

Lemma Call_single_attempt_witness :
  ∃ o mid,
    Call sampleWorld (Some sampleTransport) Background (Some (sampleRequest "s" "m" 0)) []
      = (o, [] ++ EvOutboundCall
                (requestContextWithTimeout sampleWorld Background
                   (sampleRequest "s" "m" 0)).1
                (requestToYARPCRequest sampleWorld sampleTransport (sampleRequest "s" "m" 0))
              :: mid ++ [EvCancel (requestContextWithTimeout sampleWorld Background
                                     (sampleRequest "s" "m" 0)).2]) ∧
    (mid = [] ∨ mid = [EvReadAll] ∨ mid = [EvReadAll; EvBodyClose]).
Proof.
  exact (Call_single_attempt sampleWorld sampleTransport Background
           (sampleRequest "s" "m" 0) [] (sampleRequest_valid 0)).
Defined.

Lemma Call_outbound_error_witness :
  let answer := (Some (sampleWire sampleHeaders (Some (sampleBody None None))),
                 Some (errorString "unavailable")) in
  let derived := requestContextWithTimeout (sampleWorldAnswering answer) Background
                   (sampleRequest "s" "m" 0) in
  Call (sampleWorldAnswering answer) (Some sampleTransport) Background
    (Some (sampleRequest "s" "m" 0)) []
  = (Returned (None, Some (errorString "unavailable")),
     [] ++ [EvOutboundCall derived.1
              (requestToYARPCRequest (sampleWorldAnswering answer) sampleTransport
                 (sampleRequest "s" "m" 0));
            EvCancel derived.2]).
Proof.
  intros answer derived.
  apply (Call_outbound_error (sampleWorldAnswering answer) sampleTransport Background
           (sampleRequest "s" "m" 0) []
           (Some (sampleWire sampleHeaders (Some (sampleBody None None))))
           (errorString "unavailable")).
  - apply sampleRequest_valid.
  - reflexivity.
Defined.

Lemma Call_success_witness :
  let answer := (Some (sampleWire sampleHeaders (Some (sampleBody None None))), None) in
  (Call (sampleWorldAnswering answer) (Some sampleTransport) Background
     (Some (sampleRequest "s" "m" 0)) []).1
  = Returned (Some (Response.mk [("k1", "v1"); ("k2", "v2")] (ofString "abc")), None) ∧
  (Call (sampleWorldAnswering (Some (sampleWire sampleHeaders None), None))
     (Some sampleTransport) Background (Some (sampleRequest "s" "m" 0)) []).1
  = Returned (Some (Response.mk [("k1", "v1"); ("k2", "v2")] []), None).
Proof.
  intros answer. split.
  - rewrite (proj2 (Call_success (sampleWorldAnswering answer) sampleTransport Background
                      (sampleRequest "s" "m" 0) []
                      (sampleWire sampleHeaders (Some (sampleBody None None)))
                      (sampleRequest_valid 0) eq_refl)
               (sampleBody None None) eq_refl eq_refl eq_refl).
    reflexivity.
  - rewrite (proj1 (Call_success
                      (sampleWorldAnswering (Some (sampleWire sampleHeaders None), None))
                      sampleTransport Background (sampleRequest "s" "m" 0) []
                      (sampleWire sampleHeaders None)
                      (sampleRequest_valid 0) eq_refl) eq_refl).
    reflexivity.
Defined.


Lemma nil_pointers_panic_witness :
  Call sampleWorld None Background (Some (sampleRequest "s" "m" 0)) []
  = (Panicked,
     [] ++ [EvCancel (requestContextWithTimeout sampleWorld Background
                        (sampleRequest "s" "m" 0)).2]).
Proof.
  apply (nil_pointers_panic sampleWorld None Background (sampleRequest "s" "m" 0) None []).
  apply sampleRequest_valid.
Defined.

Lemma newGRPC_success_iff_witness :
  (∃ t tr, newGRPC (sampleWorldWith None None)
             (sampleOptions "ca.pem" "cert.pem" "key.pem") []
           = (Returned (Some t, None), tr)) ∧
  ¬ (∃ t tr, newGRPC sampleWorld (sampleOptions "" "" "") []
             = (Returned (Some t, None), tr)).
Proof.
  split.
  - apply (proj2 (newGRPC_success_iff (sampleWorldWith None None)
                    (sampleOptions "ca.pem" "cert.pem" "key.pem"))).
    split; [apply sampleOptions_required|].
    split; [|by split]. intros _. by repeat split.
  - intros Hrun.
    apply (proj1 (newGRPC_success_iff sampleWorld (sampleOptions "" "" ""))) in Hrun.
    destruct Hrun as (_ & _ & _ & Hos). discriminate Hos.
Defined.

Lemma newGRPC_success_fields_witness :
  let tr := (newGRPC (sampleWorldWith None None) (sampleOptions "" "" "") []).2 in
  grpcTransport.Caller sampleTransport = "svc" ∧
  Tracer (Some sampleTransport) tr = (Returned (Some (mkTracer "t")), tr) ∧
  grpcTransport.StreamOutbound sampleTransport = grpcTransport.Outbound sampleTransport ∧
  peer_BindPeers (outboundChooser (grpcTransport.Outbound sampleTransport))
    = [hostport_Identify "a:1"; hostport_Identify "b:2"].
Proof.
  intros tr.
  destruct (newGRPC_success_fields (sampleWorldWith None None) (sampleOptions "" "" "")
              sampleTransport tr eq_refl)
    as (Hcaller & _ & _ & _ & _ & _ & Htracer & Hstream & _ & Hpeers & _).
  repeat split; assumption.
Defined.

Lemma newGRPC_engine_calls_witness :
  ∃ setup phase,
    (newGRPC sampleWorld (sampleOptions "ca.pem" "cert.pem" "key.pem") []).2
      = setup ++ phase ∧
    Forall (λ ev, isSetupEvent ev = true) setup ∧
    (phase ≠ [] → ∃ transport chooser, last setup = Some (EvNewOutbound transport chooser)).
Proof.
  destruct (newGRPC_engine_calls sampleWorld (sampleOptions "ca.pem" "cert.pem" "key.pem")
              (newGRPC sampleWorld (sampleOptions "ca.pem" "cert.pem" "key.pem") []).1
              (newGRPC sampleWorld (sampleOptions "ca.pem" "cert.pem" "key.pem") []).2
              eq_refl)
    as (setup & phase & Htr & Hsetup & _ & _ & Hlast).
  by exists setup, phase.
Defined.

Lemma newGRPC_max_response_size_witness :
  let limited := GRPCOptions.mk ["a:1"] (Some (mkTracer "t")) "svc" "" "" "" 4096 "" "" "" in
  (∃ r rest, newGRPC sampleWorld limited []
             = (r, EvNewTransport [grpc_Tracer (mkTracer "t");
                                   grpc_ClientMaxRecvMsgSize 4096] :: rest)) ∧
  (∃ r rest, newGRPC sampleWorld (sampleOptions "" "" "") []
             = (r, EvNewTransport [grpc_Tracer (mkTracer "t")] :: rest)).
Proof.
  intros limited. split.
  - destruct (newGRPC_max_response_size sampleWorld limited)
      as (optionsTracer & opts & r & rest & Ht & Hrun & Hpos & _).
    + by repeat split.
    + injection Ht as <-. rewrite Hpos in Hrun by (simpl; lia). by exists r, rest.
  - destruct (newGRPC_max_response_size sampleWorld (sampleOptions "" "" ""))
      as (optionsTracer & opts & r & rest & Ht & Hrun & _ & Hzero).
    + apply sampleOptions_required.
    + injection Ht as <-. rewrite Hzero in Hrun by (simpl; lia). by exists r, rest.
Defined.

Lemma newGRPC_then_Close_witness :
  let tr := (newGRPC (sampleWorldWith None None) (sampleOptions "" "" "") []).2 in
  leftStarted tr = (true, true) ∧
  leftStarted (Close (sampleWorldWith None None) (Some sampleTransport) tr).2
    = (false, false).
Proof.
  intros tr.
  destruct (newGRPC_then_Close (sampleWorldWith None None) (sampleOptions "" "" "")
              sampleTransport tr eq_refl) as (Hup & _ & Hdown).
  by split.
Defined.
